(** * lc3vm: a shallow embedding of the LC-3 virtual machine

    The repository holds two near-identical Go programs: [main.go] and a
    second file, the lc3vm proper.  Both keep the machine in two
    package-level slices, [memory] and [registers], and share the helpers
    [decode], [read], [signExtend], [swap] and [updateFlag] verbatim
    ([write] is a stub in [main.go]).  They differ in the event loop only:
    lc3vm guards the fetch with a bound check on the program counter and
    treats opcode 0 as an empty case, while [main.go] has no guard and
    halts on opcode 0.

    Conventions of the embedding:
    - a [uint16] is a [Z] in the range [0, 65536); every Go operation that
      can leave that range is followed by its wrap-around [u16];
    - a slice is a [list Z]; an out-of-range index makes Go panic, which is
      the [None] of the option monad;
    - the calls to [fmt.Printf] only write to the terminal and are left out. *)

From Stdlib Require Import ZArith Lia Bool.
From stdpp Require Import base option list.

Local Open Scope Z_scope.

(** ** Machine words *)

Definition u16 (z : Z) : Z := z mod 65536.

Definition is_u16 (z : Z) : Prop := 0 <= z < 65536.

(** ** Enumerations: [Register], [Flag], [OpCode], [RegisterMM] *)

Definition r0 : Z := 0.
Definition r1 : Z := 1.
Definition r2 : Z := 2.
Definition r3 : Z := 3.
Definition r4 : Z := 4.
Definition r5 : Z := 5.
Definition r6 : Z := 6.
Definition r7 : Z := 7.
Definition rPC : Z := 8.
Definition rCD : Z := 9.
Definition rCN : Z := 10.

Definition flPOS : Z := Z.shiftl 1 0.
Definition flZRO : Z := Z.shiftl 1 1.
Definition flNEG : Z := Z.shiftl 1 2.

Definition opBR : Z := 0.
Definition opADD : Z := 1.
Definition opLD : Z := 2.
Definition opST : Z := 3.
Definition opJSR : Z := 4.
Definition opAND : Z := 5.
Definition opLDR : Z := 6.
Definition opSTR : Z := 7.
Definition opRTI : Z := 8.
Definition opNOT : Z := 9.
Definition opLDI : Z := 10.
Definition opSTI : Z := 11.
Definition opJMP : Z := 12.
Definition opRES : Z := 13.
Definition opLEA : Z := 14.
Definition opTRA : Z := 15.

Definition rKBSR : Z := 0xFE00.
Definition rKBDR : Z := 0xFE02.

Definition pcStart : Z := 0x3000.

(** Go's [math.MaxUint16]. *)
Definition MaxUint16 : Z := 65535.

(** ** Slices *)

(** [make([]uint16, n)]: a zero-filled slice of length [n]. *)
Definition make (n : Z) : list Z := replicate (Z.to_nat n) 0.

(** [s[i]] as an expression: panics outside [0, len(s)). *)
Definition index (s : list Z) (i : Z) : option Z :=
  if bool_decide (0 <= i < Z.of_nat (length s)) then s !! Z.to_nat i else None.

(** [s[i] = v] as a statement: panics outside [0, len(s)). *)
Definition assign (s : list Z) (i v : Z) : option (list Z) :=
  if bool_decide (0 <= i < Z.of_nat (length s))
  then Some (<[Z.to_nat i := v]> s) else None.

(** ** The machine state: the two package-level slices *)

Record VM : Type := mkVM { memory : list Z; registers : list Z }.

Definition getReg (vm : VM) (r : Z) : option Z := index (registers vm) r.

Definition setReg (vm : VM) (r v : Z) : option VM :=
  regs ← assign (registers vm) r v;
  Some {| memory := memory vm; registers := regs |}.

(** ** Helpers shared by both files *)

(** [func decode(r uint16) (uint16, uint16, uint16, uint16, uint16)] *)
Definition decode (r : Z) : Z * Z * Z * Z * Z :=
  (Z.shiftr r 12,
   Z.land (Z.shiftr r 9) 0x7,
   Z.land (Z.shiftr r 6) 0x7,
   Z.land (Z.shiftr r 5) 0x1,
   Z.land r 0x1F).

(** [func read(address uint16) uint16] *)
Definition read (vm : VM) (address : Z) : option Z :=
  index (memory vm) address.

(** [func write(address uint16, value uint16)] (a stub in [main.go]). *)
Definition write (vm : VM) (address value : Z) : option VM :=
  mem ← assign (memory vm) address value;
  Some {| memory := mem; registers := registers vm |}.

(** [func signExtend(x uint16, count uint) uint16].  [count] is a machine
    [uint], so [count - 1] wraps around at zero; the untyped constant
    [0xFFFF] takes the type of [x], so the shifted value is cut to 16 bits. *)
Definition signExtend (x count : Z) : Z :=
  if Z.land (Z.shiftr x ((count - 1) mod 2 ^ 64)) 0x1 =? 0x1
  then u16 (Z.shiftl 0xFFFF count)
  else x.

(** [func swap(x uint16) uint16] *)
Definition swap (x : Z) : Z :=
  Z.lor (u16 (Z.shiftl x 8)) (Z.shiftr x 8).

(** [func updateFlag(f uint16)]: [f] is a register index. *)
Definition updateFlag (f : Z) (vm : VM) : option VM :=
  v ← getReg vm f;
  if v =? 0x0 then setReg vm rCD flZRO
  else
    v' ← getReg vm f;
    if Z.shiftr v' 15 =? 0x1 then setReg vm rCD flNEG
    else setReg vm rCD flPOS.

(** The body of [case 0x1] of the [switch], the same in both files. *)
Definition caseADD (vm : VM) (dst srcA flag srcB : Z) : option VM :=
  vm' ← (if flag =? 0x1 then
           a ← getReg vm srcA;
           setReg vm dst (u16 (a + srcB))
         else
           a ← getReg vm srcA;
           b ← getReg vm srcB;
           setReg vm dst (u16 (a + b)));
  updateFlag dst vm'.

(** What an iteration of the event loop leaves behind: go round again or
    leave the loop. *)
Inductive Control : Type := Continue | Break.

Definition control_of (running : bool) : Control :=
  if running then Continue else Break.

(** The result of running the event loop on a budget of iterations. *)
Inductive Outcome : Type :=
| Exited (vm : VM)
| Panicked
| OutOfFuel.

(** ** The event loop of lc3vm (second file) *)

Module Lc3vm.

(** The [switch op] statement, returning the state and [running]. *)
Definition execute (vm : VM) (op dst srcA flag srcB : Z) : option (VM * bool) :=
  match op with
  | 0x0 => Some (vm, true)
  | 0x1 => vm' ← caseADD vm dst srcA flag srcB; Some (vm', true)
  | 0x2 | 0x3 | 0x4 | 0x5 | 0x6 | 0x7 | 0x8 | 0x9
  | 0xA | 0xB | 0xC | 0xD | 0xE => Some (vm, true)
  | 0xF => Some (vm, false)
  | _ => Some (vm, false)
  end.

(** One pass through the body of [for { ... }]. *)
Definition iteration (vm : VM) : option (VM * Control) :=
  pc ← getReg vm rPC;
  vm1 ← setReg vm rPC (u16 (pc + 1));
  pc1 ← getReg vm1 rPC;
  if u16 (Z.of_nat (length (memory vm1))) <=? pc1 then Some (vm1, Break)
  else
    pc2 ← getReg vm1 rPC;
    instruction ← read vm1 pc2;
    let '(op, dst, srcA, flag, srcB) := decode instruction in
    '(vm2, running) ← execute vm1 op dst srcA flag srcB;
    Some (vm2, control_of running).

Fixpoint run (fuel : nat) (vm : VM) : Outcome :=
  match fuel with
  | O => OutOfFuel
  | S fuel' =>
      match iteration vm with
      | None => Panicked
      | Some (vm', Break) => Exited vm'
      | Some (vm', Continue) => run fuel' vm'
      end
  end.

End Lc3vm.

(** ** The event loop of [main.go] (first file) *)

Module MainGo.

Definition execute (vm : VM) (op dst srcA flag srcB : Z) : option (VM * bool) :=
  match op with
  | 0x0 => Some (vm, false)
  | 0x1 => vm' ← caseADD vm dst srcA flag srcB; Some (vm', true)
  | 0x2 | 0x3 | 0x4 | 0x5 | 0x6 | 0x7 | 0x8 | 0x9
  | 0xA | 0xB | 0xC | 0xD | 0xE => Some (vm, true)
  | 0xF => Some (vm, false)
  | _ => Some (vm, false)
  end.

Definition iteration (vm : VM) : option (VM * Control) :=
  pc ← getReg vm rPC;
  vm1 ← setReg vm rPC (u16 (pc + 1));
  pc1 ← getReg vm1 rPC;
  instruction ← read vm1 pc1;
  let '(op, dst, srcA, flag, srcB) := decode instruction in
  '(vm2, running) ← execute vm1 op dst srcA flag srcB;
  Some (vm2, control_of running).

Fixpoint run (fuel : nat) (vm : VM) : Outcome :=
  match fuel with
  | O => OutOfFuel
  | S fuel' =>
      match iteration vm with
      | None => Panicked
      | Some (vm', Break) => Exited vm'
      | Some (vm', Continue) => run fuel' vm'
      end
  end.

End MainGo.

(** ** The state [main] builds before it enters the loop (both files) *)

Definition initial : VM :=
  {| memory :=
       <[Z.to_nat (pcStart + 4) := 0x1024]>
         (<[Z.to_nat (pcStart + 3) := 0x1001]>
            (<[Z.to_nat (pcStart + 2) := 0x1001]>
               (<[Z.to_nat (pcStart + 1) := 0x1001]> (make MaxUint16))));
     registers := <[Z.to_nat r1 := 0x1]> (<[Z.to_nat rPC := pcStart]> (make rCN)) |}.


(** ** Reference notions taken from the specification

    These follow the words of the specification and are what the functions
    above are compared with. *)

(** Bits [hi:lo] of a word, as a number. *)
Definition bits (r hi lo : Z) : Z := (r / 2 ^ lo) mod 2 ^ (hi - lo + 1).

(** Sign extension as specified: the low [bitWidth] bits are kept, and the
    bits above them are all 1 when bit [bitWidth - 1] is set, all 0
    otherwise. *)
Definition signExtend_spec (value bitWidth : Z) : Z :=
  let low := value mod 2 ^ bitWidth in
  if Z.testbit value (bitWidth - 1) then low + (2 ^ 16 - 2 ^ bitWidth) else low.

(** The flag a 16-bit result selects: Z for zero, N when bit 15 is set,
    P otherwise. *)
Definition flag_of (value : Z) : Z :=
  if value =? 0 then flZRO else if Z.testbit value 15 then flNEG else flPOS.


(** The read of the specification, which consults the external input
    provider: [kbd] is the character the provider holds ready, if any.  The
    result is the word read and what the provider holds afterwards. *)
Definition read_spec (kbd : option Z) (vm : VM) (address : Z) : option (Z * option Z) :=
  if address =? rKBSR then
    Some (if kbd is Some _ then 0x8000 else 0, kbd)
  else if address =? rKBDR then
    Some (default 0 ((fun c => c mod 256) <$> kbd), None)
  else
    w ← index (memory vm) address; Some (w, kbd).

(** The decoded instruction of the specification: one variant per opcode,
    each with the fields of the layout table. *)
Inductive DecodedInstruction : Type :=
| DBR (cond pcOffset9 : Z)
| DADD (dst src1 mode operand : Z)
| DLD (reg pcOffset9 : Z)
| DST (reg pcOffset9 : Z)
| DJSR (mode target : Z)
| DAND (dst src1 mode operand : Z)
| DLDR (reg baseR offset6 : Z)
| DSTR (reg baseR offset6 : Z)
| DRTI
| DNOT (dst src : Z)
| DLDI (reg pcOffset9 : Z)
| DSTI (reg pcOffset9 : Z)
| DJMP (baseR : Z)
| DRES
| DLEA (reg pcOffset9 : Z)
| DTRAP (trapVect8 : Z).

(** The last operand of ADD and AND: imm5[4:0] in immediate mode,
    src2[2:0] in register mode. *)
Definition alu_operand (r : Z) : Z :=
  if bits r 5 5 =? 1 then bits r 4 0 else bits r 2 0.

(** The target of JSR: pcOffset11[10:0] when the mode bit is set,
    baseR[8:6] otherwise. *)
Definition jsr_target (r : Z) : Z :=
  if bits r 11 11 =? 1 then bits r 10 0 else bits r 8 6.

Definition decode_spec (r : Z) : DecodedInstruction :=
  match bits r 15 12 with
  | 0x0 => DBR (bits r 11 9) (bits r 8 0)
  | 0x1 => DADD (bits r 11 9) (bits r 8 6) (bits r 5 5) (alu_operand r)
  | 0x2 => DLD (bits r 11 9) (bits r 8 0)
  | 0x3 => DST (bits r 11 9) (bits r 8 0)
  | 0x4 => DJSR (bits r 11 11) (jsr_target r)
  | 0x5 => DAND (bits r 11 9) (bits r 8 6) (bits r 5 5) (alu_operand r)
  | 0x6 => DLDR (bits r 11 9) (bits r 8 6) (bits r 5 0)
  | 0x7 => DSTR (bits r 11 9) (bits r 8 6) (bits r 5 0)
  | 0x8 => DRTI
  | 0x9 => DNOT (bits r 11 9) (bits r 8 6)
  | 0xA => DLDI (bits r 11 9) (bits r 8 0)
  | 0xB => DSTI (bits r 11 9) (bits r 8 0)
  | 0xC => DJMP (bits r 8 6)
  | 0xD => DRES
  | 0xE => DLEA (bits r 11 9) (bits r 8 0)
  | _ => DTRAP (bits r 7 0)
  end.

(** The operand fields a decoded instruction carries, in order. *)
Definition operands (d : DecodedInstruction) : list Z :=
  match d with
  | DBR c o | DLD c o | DST c o | DLDI c o | DSTI c o | DLEA c o => [c; o]
  | DADD d s m o | DAND d s m o => [d; s; m; o]
  | DJSR m t => [m; t]
  | DLDR x b o | DSTR x b o => [x; b; o]
  | DNOT d s => [d; s]
  | DJMP b => [b]
  | DTRAP v => [v]
  | DRTI | DRES => []
  end.

(** The operand fields of the five-tuple [decode] returns. *)
Definition fields (t : Z * Z * Z * Z * Z) : list Z :=
  let '(_, dst, srcA, flag, srcB) := t in [dst; srcA; flag; srcB].

(** ** Concrete machines used as test inputs *)

(** A zero-filled machine with the sizes [main] allocates. *)
Definition blank : VM := {| memory := make MaxUint16; registers := make rCN |}.

(** [0x1024] at [0x3000], [R1 = 1], [PC = 0x2FFF]. *)
Definition add_demo : VM :=
  {| memory := <[Z.to_nat 0x3000 := 0x1024]> (make MaxUint16);
     registers := <[Z.to_nat rPC := 0x2FFF]> (<[Z.to_nat r1 := 0x1]> (make rCN)) |}.

(** [R0 = 1], about to execute [0x103F], the LC-3 encoding of
    [ADD R0, R0, #-1]. *)
Definition decrement_demo : VM :=
  {| memory := make MaxUint16;
     registers := <[Z.to_nat r0 := 0x1]> (make rCN) |}.

(** An RTI word ([0x8000]) and a RES word ([0xD000]) right after [pcStart]. *)
Definition rti_demo : VM :=
  {| memory := <[Z.to_nat (pcStart + 2) := 0xD000]>
                 (<[Z.to_nat (pcStart + 1) := 0x8000]> (make MaxUint16));
     registers := <[Z.to_nat rPC := pcStart]> (make rCN) |}.

(** ** Words by the case of the [switch] they select *)

(** A word the loop of lc3vm passes over: its case is empty and leaves
    [running] set (every opcode but ADD and TRAP). *)
Definition skipped_by_lc3vm (w : Z) : bool :=
  (0 <=? Z.shiftr w 12) && (Z.shiftr w 12 <? opTRA) && negb (Z.shiftr w 12 =? opADD).

(** A word the loop of [main.go] passes over: opcodes 2 to 14. *)
Definition skipped_by_main (w : Z) : bool :=
  (opADD <? Z.shiftr w 12) && (Z.shiftr w 12 <? opTRA).

(** A word on which the loop of [main.go] stops: BR or TRAP. *)
Definition stops_main (w : Z) : bool :=
  (Z.shiftr w 12 =? opBR) || (Z.shiftr w 12 =? opTRA).

(** ** More concrete machines *)

(** A zeroed machine about to step onto the last address. *)
Definition top_demo : VM :=
  {| memory := make MaxUint16;
     registers := <[Z.to_nat rPC := 0xFFFE]> (make rCN) |}.

(** [0x100A] right after [pcStart]: an ADD in register mode whose low five
    bits are 10, one past the last register. *)
Definition panic_demo : VM :=
  {| memory := <[Z.to_nat (pcStart + 1) := 0x100A]> (make MaxUint16);
     registers := <[Z.to_nat rPC := pcStart]> (make rCN) |}.

(** The machine of [main] once its four ADD words have been executed. *)
Definition after_adds : VM :=
  {| memory := memory initial;
     registers := [7; 1; 0; 0; 0; 0; 0; 0; pcStart + 4; flPOS] |}.

(** * Properties *)

(** ** Slices: indexing and assignment *)

Lemma index_Some (s : list Z) (i v : Z) :
  index s i = Some v <-> 0 <= i < Z.of_nat (length s) /\ s !! Z.to_nat i = Some v.
Proof.
  unfold index. case_bool_decide as Hi.
  - tauto.
  - split; [discriminate | tauto].
Qed.

Lemma index_in_range (s : list Z) (i : Z) :
  0 <= i < Z.of_nat (length s) -> exists v, index s i = Some v.
Proof.
  intros Hi. unfold index. rewrite bool_decide_eq_true_2 by exact Hi.
  destruct (lookup_lt_is_Some_2 s (Z.to_nat i)) as [v Hv]; [lia | eauto].
Qed.

Lemma index_out_of_range (s : list Z) (i : Z) :
  ~ 0 <= i < Z.of_nat (length s) -> index s i = None.
Proof. intros Hi. unfold index. now rewrite bool_decide_eq_false_2. Qed.

Lemma assign_Some (s s' : list Z) (i v : Z) :
  assign s i v = Some s' <->
  0 <= i < Z.of_nat (length s) /\ s' = <[Z.to_nat i := v]> s.
Proof.
  unfold assign. case_bool_decide as Hi.
  - split; [intros [= <-]; tauto | intros [_ ->]; reflexivity].
  - split; [discriminate | tauto].
Qed.

Lemma assign_in_range (s : list Z) (i v : Z) :
  0 <= i < Z.of_nat (length s) -> assign s i v = Some (<[Z.to_nat i := v]> s).
Proof. intros Hi. unfold assign. now rewrite bool_decide_eq_true_2. Qed.

Lemma assign_length (s s' : list Z) (i v : Z) :
  assign s i v = Some s' -> length s' = length s.
Proof. intros [_ ->]%assign_Some. apply length_insert. Qed.

Lemma index_assign_eq (s s' : list Z) (i v : Z) :
  assign s i v = Some s' -> index s' i = Some v.
Proof.
  intros [Hi ->]%assign_Some. apply index_Some. rewrite length_insert.
  split; [exact Hi |]. apply list_lookup_insert_eq. lia.
Qed.

Lemma index_assign_ne (s s' : list Z) (i j v : Z) :
  assign s i v = Some s' -> 0 <= j -> i <> j -> index s' j = index s j.
Proof.
  intros [Hi ->]%assign_Some Hj Hne. unfold index.
  rewrite length_insert, list_lookup_insert_ne by lia. reflexivity.
Qed.

(** ** Registers *)

Lemma setReg_Some (vm vm' : VM) (r v : Z) :
  setReg vm r v = Some vm' <->
  0 <= r < Z.of_nat (length (registers vm)) /\
  vm' = {| memory := memory vm; registers := <[Z.to_nat r := v]> (registers vm) |}.
Proof.
  unfold setReg. destruct (assign (registers vm) r v) as [regs|] eqn:E; simpl.
  - apply assign_Some in E as [Hr ->]. split; [intros [= <-]; tauto | intros [_ ->]; reflexivity].
  - split; [discriminate |]. intros [Hr _].
    rewrite (assign_in_range _ _ _ Hr) in E. discriminate.
Qed.

Lemma setReg_in_range (vm : VM) (r v : Z) :
  0 <= r < Z.of_nat (length (registers vm)) ->
  setReg vm r v =
  Some {| memory := memory vm; registers := <[Z.to_nat r := v]> (registers vm) |}.
Proof. intros Hr. apply setReg_Some. tauto. Qed.

Lemma setReg_memory (vm vm' : VM) (r v : Z) :
  setReg vm r v = Some vm' -> memory vm' = memory vm.
Proof. intros [_ ->]%setReg_Some. reflexivity. Qed.

Lemma setReg_length (vm vm' : VM) (r v : Z) :
  setReg vm r v = Some vm' -> length (registers vm') = length (registers vm).
Proof. intros [_ ->]%setReg_Some. apply length_insert. Qed.

Lemma getReg_setReg_eq (vm vm' : VM) (r v : Z) :
  setReg vm r v = Some vm' -> getReg vm' r = Some v.
Proof.
  intros [Hr ->]%setReg_Some. unfold getReg; simpl.
  apply (index_assign_eq (registers vm)). now apply assign_in_range.
Qed.

Lemma getReg_setReg_ne (vm vm' : VM) (r r' v : Z) :
  setReg vm r v = Some vm' -> 0 <= r' -> r <> r' -> getReg vm' r' = getReg vm r'.
Proof.
  intros [Hr ->]%setReg_Some Hr' Hne. unfold getReg; simpl.
  apply (index_assign_ne (registers vm) _ r r' v); [now apply assign_in_range | lia | exact Hne].
Qed.

Lemma getReg_in_range (vm : VM) (r : Z) :
  0 <= r < Z.of_nat (length (registers vm)) -> exists v, getReg vm r = Some v.
Proof. apply index_in_range. Qed.

Lemma getReg_Some_range (vm : VM) (r v : Z) :
  getReg vm r = Some v -> 0 <= r < Z.of_nat (length (registers vm)).
Proof. intros H%index_Some. tauto. Qed.

(** ** Words and bit fields *)

Lemma u16_range (z : Z) : is_u16 (u16 z).
Proof. unfold is_u16, u16. apply Z.mod_pos_bound. lia. Qed.

Lemma u16_small (z : Z) : is_u16 z -> u16 z = z.
Proof. intros H. apply Z.mod_small. exact H. Qed.

Lemma u16_bits (z n : Z) :
  0 <= n -> Z.testbit (u16 z) n = (n <? 16) && Z.testbit z n.
Proof.
  intros Hn. unfold u16. change 65536 with (2 ^ 16).
  destruct (Z.ltb_spec n 16).
  - now rewrite Z.mod_pow2_bits_low.
  - now rewrite Z.mod_pow2_bits_high.
Qed.

Lemma is_u16_high_bits (z n : Z) : is_u16 z -> 16 <= n -> Z.testbit z n = false.
Proof.
  intros Hz Hn. rewrite <- (u16_small z Hz), u16_bits by lia.
  destruct (Z.ltb_spec n 16); [lia | reflexivity].
Qed.

Lemma shiftr_alt (r n : Z) : 0 <= n -> Z.shiftr r n = r / 2 ^ n.
Proof. apply Z.shiftr_div_pow2. Qed.

Lemma land_low_bits (r n : Z) : 0 <= n -> Z.land r (Z.ones n) = r mod 2 ^ n.
Proof. apply Z.land_ones. Qed.

Lemma field_alt (r lo width : Z) :
  0 <= lo -> 0 <= width ->
  Z.land (Z.shiftr r lo) (Z.ones width) = bits r (lo + width - 1) lo.
Proof.
  intros Hlo Hw. unfold bits.
  rewrite land_low_bits, shiftr_alt by lia.
  f_equal. f_equal. lia.
Qed.

Lemma field_range (r lo width : Z) :
  0 <= width -> 0 <= Z.land (Z.shiftr r lo) (Z.ones width) < 2 ^ width.
Proof.
  intros Hw. rewrite land_low_bits by lia. apply Z.mod_pos_bound.
  apply Z.pow_pos_nonneg; lia.
Qed.

Lemma top_bit_alt (v : Z) :
  is_u16 v -> (Z.shiftr v 15 =? 1) = Z.testbit v 15.
Proof.
  intros Hv. rewrite <- (Z.add_0_l 15) at 2.
  rewrite <- Z.shiftr_spec, Z.bit0_odd, shiftr_alt by lia.
  assert (Hq : 0 <= v / 2 ^ 15 < 2).
  { change (2 ^ 15) with 32768. unfold is_u16 in Hv.
    split; [apply Z.div_pos; lia | apply Z.div_lt_upper_bound; lia]. }
  assert (Hc : v / 2 ^ 15 = 0 \/ v / 2 ^ 15 = 1) by lia.
  destruct Hc as [-> | ->]; reflexivity.
Qed.

(** ** [decode] *)

Lemma decode_fields_range (r op dst srcA flag srcB : Z) :
  decode r = (op, dst, srcA, flag, srcB) ->
  0 <= dst < 8 /\ 0 <= srcA < 8 /\ 0 <= flag < 2 /\ 0 <= srcB < 32.
Proof.
  unfold decode. intros [= _ <- <- <- <-].
  pose proof (field_range r 9 3) as Hd. pose proof (field_range r 6 3) as Ha.
  pose proof (field_range r 5 1) as Hf. pose proof (field_range r 0 5) as Hb.
  rewrite Z.shiftr_0_r in Hb.
  change (Z.ones 3) with 7 in *. change (Z.ones 1) with 1 in *.
  change (Z.ones 5) with 31 in *.
  change (2 ^ 3) with 8 in *. change (2 ^ 1) with 2 in *. change (2 ^ 5) with 32 in *.
  lia.
Qed.

Lemma decode_alt (r : Z) :
  is_u16 r ->
  decode r = (bits r 15 12, bits r 11 9, bits r 8 6, bits r 5 5, bits r 4 0).
Proof.
  intros Hr. unfold decode.
  change 0x7 with (Z.ones 3). change 0x1 with (Z.ones 1). change 0x1F with (Z.ones 5).
  rewrite <- (Z.shiftr_0_r r) at 5.
  rewrite !field_alt by lia. simpl Z.sub.
  replace (Z.shiftr r 12) with (bits r 15 12); [reflexivity |].
  unfold bits. rewrite shiftr_alt by lia. apply Z.mod_small.
  unfold is_u16 in Hr. change (2 ^ 12) with 4096. change (2 ^ (15 - 12 + 1)) with 16.
  split; [apply Z.div_pos; lia | apply Z.div_lt_upper_bound; lia].
Qed.

(** ** [swap] *)

Lemma swap_bits (x n : Z) :
  0 <= x -> 0 <= n ->
  Z.testbit (swap x) n =
  ((8 <=? n) && (n <? 16) && Z.testbit x (n - 8)) || Z.testbit x (n + 8).
Proof.
  intros Hx Hn. unfold swap.
  rewrite Z.lor_spec, u16_bits, Z.shiftr_spec by lia.
  f_equal.
  destruct (Z.leb_spec 8 n), (Z.ltb_spec n 16); simpl; try reflexivity.
  - apply Z.shiftl_spec. lia.
  - rewrite Z.shiftl_spec by lia. apply Z.testbit_neg_r. lia.
Qed.

Lemma swap_nonneg (x : Z) : 0 <= x -> 0 <= swap x.
Proof.
  intros Hx. unfold swap. apply Z.lor_nonneg. split.
  - apply u16_range.
  - apply Z.shiftr_nonneg. exact Hx.
Qed.

Lemma swap_swap_bits (x n : Z) :
  is_u16 x -> 0 <= n -> Z.testbit (swap (swap x)) n = Z.testbit x n.
Proof.
  intros Hx Hn. assert (H0 : 0 <= x) by (unfold is_u16 in Hx; lia).
  rewrite swap_bits by (auto using swap_nonneg).
  rewrite (swap_bits x (n + 8)) by lia.
  replace (n + 8 - 8) with n by lia.
  rewrite (is_u16_high_bits x (n + 8 + 8)) by (auto; lia).
  rewrite orb_false_r.
  destruct (Z.leb_spec 8 n) as [H8 | H8], (Z.ltb_spec n 16) as [H16 | H16]; simpl.
  - rewrite swap_bits by lia. replace (n - 8 + 8) with n by lia.
    destruct (Z.leb_spec 8 (n - 8)); [lia |]. simpl.
    destruct (Z.ltb_spec (n + 8) 16); [lia |].
    destruct (Z.leb_spec 8 (n + 8)); simpl; now rewrite ?orb_false_r.
  - destruct (Z.ltb_spec (n + 8) 16); [lia |].
    rewrite andb_false_r, (is_u16_high_bits x n) by (auto; lia). reflexivity.
  - destruct (Z.leb_spec 8 (n + 8)); [| lia].
    destruct (Z.ltb_spec (n + 8) 16); [| lia]. reflexivity.
  - lia.
Qed.

(** C9: for every 16-bit word [x], swapping the two bytes twice gives [x]
    back: [swap (swap x) = x]. *)
Theorem swap_involutive (x : Z) : is_u16 x -> swap (swap x) = x.
Proof.
  intros Hx. apply Z.bits_inj'. intros n Hn. now apply swap_swap_bits.
Qed.

Lemma swap_involutive_witness : is_u16 0x1234 /\ swap (swap 0x1234) = 0x1234.
Proof.
  split; [unfold is_u16; lia |]. apply (swap_involutive 0x1234). unfold is_u16. lia.
Defined.

(** ** [signExtend] *)

Lemma low_bit_test (a : Z) : (Z.land a 0x1 =? 0x1) = Z.testbit a 0.
Proof.
  pose proof (land_low_bits a 1) as H. change (Z.ones 1) with 1 in H.
  rewrite H by lia. change (2 ^ 1) with 2.
  rewrite Zmod_odd, Z.bit0_odd. destruct (Z.odd a); reflexivity.
Qed.

Lemma sign_bit_test (x count : Z) :
  (Z.land (Z.shiftr x ((count - 1) mod 2 ^ 64)) 0x1 =? 0x1) =
  Z.testbit x ((count - 1) mod 2 ^ 64).
Proof.
  assert (Hs : 0 <= (count - 1) mod 2 ^ 64) by (apply Z.mod_pos_bound; lia).
  rewrite low_bit_test, Z.shiftr_spec by lia. now rewrite Z.add_0_l.
Qed.

Lemma signExtend_sign_clear (x count : Z) :
  Z.testbit x ((count - 1) mod 2 ^ 64) = false -> signExtend x count = x.
Proof.
  intros Hb. unfold signExtend. now rewrite sign_bit_test, Hb.
Qed.

Lemma signExtend_sign_set (x count : Z) :
  Z.testbit x ((count - 1) mod 2 ^ 64) = true ->
  signExtend x count = u16 (Z.shiftl 0xFFFF count).
Proof.
  intros Hb. unfold signExtend. now rewrite sign_bit_test, Hb.
Qed.

(** In the sign-set branch the low [count] bits of the argument are lost:
    the result depends on [count] alone and its low bits are all zero. *)
Lemma signExtend_sign_set_low_bits (x count n : Z) :
  Z.testbit x ((count - 1) mod 2 ^ 64) = true ->
  0 <= n < count -> Z.testbit (signExtend x count) n = false.
Proof.
  intros Hb Hn. rewrite signExtend_sign_set by exact Hb.
  rewrite u16_bits, Z.shiftl_spec by lia.
  rewrite (Z.testbit_neg_r _ (n - count)) by lia. apply andb_false_r.
Qed.

(** C1: on the first example of the claim the code does not return
    [0xFFFF]: [signExtend(0b11111, 5)] is [0xFFE0], with the five low bits
    cleared, where the specified sign extension is [0xFFFF].  The other two
    examples, with the sign bit clear, come out as the claim says. *)
Theorem signExtend_examples :
  signExtend 0x1F 5 = 0xFFE0 /\
  signExtend 0x1F 5 <> 0xFFFF /\
  signExtend_spec 0x1F 5 = 0xFFFF /\
  signExtend 0x01 5 = 0x0001 /\
  signExtend 0x0F 5 = 0x000F.
Proof. repeat split; try reflexivity. discriminate. Qed.

(** ** [updateFlag] *)


Lemma updateFlag_Some (vm : VM) (f value : Z) :
  rCD < Z.of_nat (length (registers vm)) ->
  getReg vm f = Some value -> is_u16 value ->
  updateFlag f vm =
  Some {| memory := memory vm;
          registers := <[Z.to_nat rCD := flag_of value]> (registers vm) |}.
Proof.
  intros Hlen Hf Hv. unfold updateFlag, flag_of. rewrite Hf.
  cbn [mbind option_bind]. rewrite top_bit_alt by exact Hv.
  destruct (value =? 0); [| destruct (Z.testbit value 15)];
    apply setReg_in_range; unfold rCD in *; lia.
Qed.



(** ** [decode] against the layout table *)

(** C6, as stated, fails: on the TRAP word [0xF025] the specified decoder
    yields the single field trapVect8 = [0x25], on the JSR word [0x4FFF] the
    mode bit and the 11-bit offset [0x7FF], on the BR word [0x01FF] the
    condition and the 9-bit offset [0x1FF]; [decode] yields the same four
    bit ranges for all three, and no field of more than five bits. *)
Lemma decode_not_per_opcode :
  fields (decode 0xF025) = [0; 0; 1; 5] /\
  operands (decode_spec 0xF025) = [0x25] /\
  fields (decode 0x4FFF) = [7; 7; 1; 31] /\
  operands (decode_spec 0x4FFF) = [1; 0x7FF] /\
  fields (decode 0x01FF) = [0; 7; 1; 31] /\
  operands (decode_spec 0x01FF) = [0; 0x1FF] /\
  ~ (forall r, is_u16 r -> fields (decode r) = operands (decode_spec r)).
Proof.
  repeat split; try reflexivity.
  intros H. specialize (H 0xF025). discriminate H. unfold is_u16. lia.
Qed.

(** C6, amended: for every 16-bit instruction word, [decode] extracts the
    opcode from bits [15:12] and, whatever that opcode is, the same four
    fields: bits [11:9], [8:6], [5] and [4:0], as one fixed five-tuple.
    Two words that agree on their low twelve bits therefore decode to the
    same operand fields even when their opcodes differ. *)
Theorem decode_fixed_five_tuple (r : Z) :
  is_u16 r ->
  decode r = (bits r 15 12, bits r 11 9, bits r 8 6, bits r 5 5, bits r 4 0) /\
  (forall r', is_u16 r' -> bits r' 11 0 = bits r 11 0 ->
              fields (decode r') = fields (decode r)).
Proof.
  intros Hr. split; [now apply decode_alt |].
  intros r' Hr' Hlow. rewrite (decode_alt r), (decode_alt r') by assumption.
  unfold fields.
  assert (Hsub : forall x hi lo, 0 <= lo -> lo <= hi -> hi <= 11 ->
                   bits x hi lo = bits (bits x 11 0) hi lo).
  { intros x hi lo Hlo Hhi H11. unfold bits.
    rewrite Z.pow_0_r, Z.div_1_r. replace (11 - 0 + 1) with 12 by lia.
    apply Z.bits_inj'. intros n Hn.
    assert (Hp : 0 < 2 ^ lo) by (apply Z.pow_pos_nonneg; lia).
    rewrite <- !shiftr_alt by lia.
    destruct (Z.ltb_spec n (hi - lo + 1)) as [Hlt | Hge].
    - rewrite !Z.mod_pow2_bits_low, !Z.shiftr_spec by lia.
      now rewrite Z.mod_pow2_bits_low by lia.
    - now rewrite !Z.mod_pow2_bits_high by lia. }
  rewrite (Hsub r 11 9), (Hsub r 8 6), (Hsub r 5 5), (Hsub r 4 0) by lia.
  rewrite (Hsub r' 11 9), (Hsub r' 8 6), (Hsub r' 5 5), (Hsub r' 4 0) by lia.
  now rewrite Hlow.
Qed.

Lemma decode_fixed_five_tuple_witness :
  is_u16 0x1024 /\ decode 0x1024 = (1, 0, 0, 1, 4) /\
  fields (decode 0xF024) = fields (decode 0x1024).
Proof.
  assert (H : is_u16 0x1024) by (unfold is_u16; lia).
  destruct (decode_fixed_five_tuple 0x1024 H) as [Hd Hf].
  split; [exact H |]. split; [exact Hd |].
  apply Hf; [unfold is_u16; lia | reflexivity].
Defined.

(** ** Memory *)

Lemma read_in_range (vm : VM) (address : Z) :
  0 <= address < Z.of_nat (length (memory vm)) -> exists w, read vm address = Some w.
Proof. apply index_in_range. Qed.

Lemma write_Some (vm vm' : VM) (address value : Z) :
  write vm address value = Some vm' <->
  0 <= address < Z.of_nat (length (memory vm)) /\
  vm' = {| memory := <[Z.to_nat address := value]> (memory vm);
           registers := registers vm |}.
Proof.
  unfold write. destruct (assign (memory vm) address value) as [mem|] eqn:E; simpl.
  - apply assign_Some in E as [Ha ->].
    split; [intros [= <-]; tauto | intros [_ ->]; reflexivity].
  - split; [discriminate |]. intros [Ha _].
    rewrite (assign_in_range _ _ _ Ha) in E. discriminate.
Qed.

Lemma read_write_eq (vm vm' : VM) (address value : Z) :
  write vm address value = Some vm' -> read vm' address = Some value.
Proof.
  intros [Ha ->]%write_Some. unfold read; simpl.
  apply (index_assign_eq (memory vm)). now apply assign_in_range.
Qed.

Lemma read_write_ne (vm vm' : VM) (address other value : Z) :
  write vm address value = Some vm' -> 0 <= other -> address <> other ->
  read vm' other = read vm other.
Proof.
  intros [Ha ->]%write_Some Ho Hne. unfold read; simpl.
  apply (index_assign_ne (memory vm) _ address other value);
    [now apply assign_in_range | lia | exact Hne].
Qed.

(** Every address but the last one is backed by the slice [main] makes. *)
Lemma memory_total_below_top (vm : VM) (address value : Z) :
  Z.of_nat (length (memory vm)) = MaxUint16 ->
  0 <= address < 0xFFFF ->
  (exists w, read vm address = Some w) /\
  (exists vm', write vm address value = Some vm').
Proof.
  intros Hlen Ha. unfold MaxUint16 in Hlen. split.
  - apply read_in_range. lia.
  - eexists. apply write_Some. split; [lia | reflexivity].
Qed.

(** C2: [main] makes the memory with [math.MaxUint16] = 65535 entries, not
    65536, so address [0xFFFF] is out of range: reading it and writing it
    both panic. *)
Theorem memory_top_address_out_of_range :
  Z.of_nat (length (memory initial)) = 65535 /\
  read initial 0xFFFF = None /\
  (forall value, write initial 0xFFFF value = None) /\
  read blank 0xFFFF = None.
Proof.
  split; [vm_compute; reflexivity |].
  split; [vm_compute; reflexivity |].
  split; [| vm_compute; reflexivity].
  intros value. unfold write.
  destruct (assign (memory initial) 0xFFFF value) as [mem|] eqn:E; [| reflexivity].
  apply assign_Some in E as [Hr _].
  assert (Hl : Z.of_nat (length (memory initial)) = 65535) by (vm_compute; reflexivity).
  lia.
Qed.

(** C7, as stated, fails: with a character ready at the input provider the
    specified read of [0xFE00] has bit 15 set and the specified read of
    [0xFE02] returns the character, while [read] returns the stored zero
    both times; and a word stored at [0xFE02] is returned by every read,
    the second as well as the first, since [read] consumes nothing. *)
Lemma read_does_not_intercept_keyboard :
  read blank rKBSR = Some 0 /\
  fst <$> read_spec (Some 0x41) blank rKBSR = Some 0x8000 /\
  read blank rKBDR = Some 0 /\
  fst <$> read_spec (Some 0x41) blank rKBDR = Some 0x41 /\
  (exists vm, write blank rKBDR 0x41 = Some vm /\
              read vm rKBDR = Some 0x41 /\ read vm rKBDR <> Some 0) /\
  ~ (forall kbd vm address, read vm address = fst <$> read_spec kbd vm address).
Proof.
  split; [vm_compute; reflexivity |].
  split; [vm_compute; reflexivity |].
  split; [vm_compute; reflexivity |].
  split; [vm_compute; reflexivity |].
  split.
  - destruct (memory_total_below_top blank rKBDR 0x41) as [_ [vm Hw]];
      [vm_compute; reflexivity | unfold rKBDR; lia |].
    exists vm. rewrite (read_write_eq _ _ _ _ Hw).
    split; [exact Hw |]. split; [reflexivity | discriminate].
  - intros H. specialize (H (Some 0x41) blank rKBSR).
    assert (Hr : read blank rKBSR = Some 0) by (vm_compute; reflexivity).
    rewrite Hr in H. vm_compute in H. discriminate H.
Qed.

(** C7, amended: [read] does not intercept the two memory-mapped I/O
    addresses.  A read of [0xFE00] or [0xFE02], like a read of any other
    address below [0xFFFF], returns the word stored there, that is the word
    last written to the address, and writes elsewhere do not change it;
    [read] returns nothing but the word, so it has no side effect and
    consults no input provider. *)
Theorem read_returns_stored_word (vm : VM) (address value : Z) :
  Z.of_nat (length (memory vm)) = MaxUint16 ->
  0 <= address < 0xFFFF ->
  exists vm',
    write vm address value = Some vm' /\
    read vm' address = Some value /\
    (forall other, 0 <= other -> other <> address -> read vm' other = read vm other) /\
    registers vm' = registers vm.
Proof.
  intros Hlen Ha.
  destruct (memory_total_below_top vm address value Hlen Ha) as [_ [vm' Hw]].
  exists vm'. split; [exact Hw |].
  split; [exact (read_write_eq _ _ _ _ Hw) |].
  split.
  - intros other Ho Hne. apply (read_write_ne _ _ _ _ _ Hw); auto.
  - apply write_Some in Hw as [_ ->]. reflexivity.
Qed.

Lemma read_returns_stored_word_witness :
  exists vm',
    write blank rKBSR 0x8000 = Some vm' /\
    read vm' rKBSR = Some 0x8000 /\
    read vm' rKBDR = read blank rKBDR.
Proof.
  destruct (read_returns_stored_word blank rKBSR 0x8000) as (vm' & Hw & Hr & Ho & _).
  - vm_compute. reflexivity.
  - unfold rKBSR. lia.
  - exists vm'. split; [exact Hw |]. split; [exact Hr |].
    apply Ho; unfold rKBDR, rKBSR; lia.
Defined.

(** ** The ADD case *)

Lemma caseADD_spec (vm : VM) (dst srcA flag srcB a b : Z) :
  Z.of_nat (length (registers vm)) = rCN ->
  0 <= dst < 8 ->
  getReg vm srcA = Some a ->
  (flag = 1 /\ b = srcB) \/ (flag <> 1 /\ getReg vm srcB = Some b) ->
  exists vm',
    caseADD vm dst srcA flag srcB = Some vm' /\
    getReg vm' dst = Some (u16 (a + b)) /\
    getReg vm' rCD = Some (flag_of (u16 (a + b))) /\
    (forall r, 0 <= r -> r <> dst -> r <> rCD -> getReg vm' r = getReg vm r) /\
    memory vm' = memory vm /\
    length (registers vm') = length (registers vm).
Proof.
  intros Hlen Hdst Ha Hmode. unfold rCN in Hlen.
  destruct (setReg vm dst (u16 (a + b))) as [vm1|] eqn:Hset.
  2:{ rewrite setReg_in_range in Hset by lia. discriminate. }
  assert (Hstep : (if flag =? 1
                   then a0 ← getReg vm srcA; setReg vm dst (u16 (a0 + srcB))
                   else a0 ← getReg vm srcA; b0 ← getReg vm srcB;
                        setReg vm dst (u16 (a0 + b0))) = Some vm1).
  { destruct Hmode as [[-> ->] | [Hf Hb]].
    - rewrite Z.eqb_refl, Ha. exact Hset.
    - apply Z.eqb_neq in Hf. rewrite Hf, Ha, Hb. exact Hset. }
  pose proof (getReg_setReg_eq _ _ _ _ Hset) as Hd1.
  pose proof (setReg_length _ _ _ _ Hset) as Hl1.
  assert (Hcd : rCD < Z.of_nat (length (registers vm1))) by (unfold rCD; lia).
  pose proof (updateFlag_Some vm1 dst _ Hcd Hd1 (u16_range _)) as Hu.
  assert (Hset2 : setReg vm1 rCD (flag_of (u16 (a + b))) =
                  Some {| memory := memory vm1;
                          registers := <[Z.to_nat rCD := flag_of (u16 (a + b))]>
                                         (registers vm1) |}).
  { apply setReg_in_range. unfold rCD in *. lia. }
  eexists. split.
  { unfold caseADD. change 0x1 with 1. rewrite Hstep. exact Hu. }
  split.
  { rewrite (getReg_setReg_ne _ _ _ _ _ Hset2) by (unfold rCD; lia). exact Hd1. }
  split; [exact (getReg_setReg_eq _ _ _ _ Hset2) |].
  split.
  { intros r Hr Hne1 Hne2.
    rewrite (getReg_setReg_ne _ _ _ _ _ Hset2) by auto.
    apply (getReg_setReg_ne _ _ _ _ _ Hset); auto. }
  split.
  { simpl. exact (setReg_memory _ _ _ _ Hset). }
  simpl. rewrite length_insert. exact Hl1.
Qed.

(** C3, as stated, fails in immediate mode: executing [0x103F], the LC-3
    encoding of [ADD R0, R0, #-1], with [R0 = 1] leaves [R0 = 1 + 31 = 32];
    the claim gives [1 + signExtend(0x1F, 5)], which is 0 for the specified
    sign extension and [0xFFE1] for the [signExtend] of the source. *)
Lemma add_immediate_not_sign_extended :
  decode 0x103F = (opADD, r0, r0, 1, 0x1F) /\
  (vm' ← caseADD decrement_demo r0 r0 1 0x1F; getReg vm' r0) = Some 32 /\
  (p ← Lc3vm.execute decrement_demo opADD r0 r0 1 0x1F; getReg p.1 r0) = Some 32 /\
  (p ← MainGo.execute decrement_demo opADD r0 r0 1 0x1F; getReg p.1 r0) = Some 32 /\
  u16 (1 + signExtend_spec 0x1F 5) = 0 /\
  u16 (1 + signExtend 0x1F 5) = 0xFFE1 /\
  (vm' ← caseADD decrement_demo r0 r0 1 0x1F; getReg vm' r0)
    <> Some (u16 (1 + signExtend_spec 0x1F 5)) /\
  (vm' ← caseADD decrement_demo r0 r0 1 0x1F; getReg vm' r0)
    <> Some (u16 (1 + signExtend 0x1F 5)).
Proof. repeat split; vm_compute; solve [reflexivity | discriminate]. Qed.

(** C3, amended: for every decoded ADD instruction, when the mode bit is 1
    the executor stores src1 + imm5 (mod 2^16) into dst, the five-bit field
    taken as an unsigned number; when the mode bit is 0 and the field names
    a register R0..R7 it stores src1 + src2 (mod 2^16) into dst; in both
    cases it then updates the condition flags from the new value of dst,
    and the loop keeps running.  This holds for the switch of both files. *)
Theorem add_stores_sum_then_updates_flags
    (vm : VM) (instruction op dst srcA flag srcB a b : Z) :
  is_u16 instruction ->
  decode instruction = (op, dst, srcA, flag, srcB) ->
  op = opADD ->
  Z.of_nat (length (registers vm)) = rCN ->
  getReg vm srcA = Some a ->
  (flag = 1 /\ b = bits instruction 4 0) \/
  (flag = 0 /\ srcB < 8 /\ getReg vm srcB = Some b) ->
  exists vm',
    Lc3vm.execute vm op dst srcA flag srcB = Some (vm', true) /\
    MainGo.execute vm op dst srcA flag srcB = Some (vm', true) /\
    getReg vm' dst = Some (u16 (a + b)) /\
    getReg vm' rCD = Some (flag_of (u16 (a + b))) /\
    (forall r, 0 <= r -> r <> dst -> r <> rCD -> getReg vm' r = getReg vm r) /\
    memory vm' = memory vm.
Proof.
  intros Hi Hdec -> Hlen Ha Hmode.
  pose proof (decode_fields_range _ _ _ _ _ _ Hdec) as (Hdst & _ & _ & _).
  assert (HsrcB : srcB = bits instruction 4 0).
  { rewrite (decode_alt instruction Hi) in Hdec. now injection Hdec. }
  destruct (caseADD_spec vm dst srcA flag srcB a b Hlen Hdst Ha)
    as (vm' & Hc & Hd & Hcc & Hoth & Hmem & _).
  { destruct Hmode as [[-> ->] | (-> & _ & Hb)]; [left | right]; split; auto; lia. }
  exists vm'. unfold Lc3vm.execute, MainGo.execute, opADD. rewrite Hc.
  repeat split; auto.
Qed.

Lemma add_stores_sum_then_updates_flags_witness :
  exists vm',
    Lc3vm.execute decrement_demo opADD r0 r0 1 0x1F = Some (vm', true) /\
    getReg vm' r0 = Some 32 /\
    getReg vm' rCD = Some flPOS.
Proof.
  destruct (add_stores_sum_then_updates_flags
              decrement_demo 0x103F opADD r0 r0 1 0x1F 1 0x1F)
    as (vm' & He & _ & Hd & Hcc & _).
  - unfold is_u16. lia.
  - reflexivity.
  - reflexivity.
  - vm_compute. reflexivity.
  - vm_compute. reflexivity.
  - left. split; reflexivity.
  - exists vm'. split; [exact He |]. split; [exact Hd | exact Hcc].
Defined.

(** ** The [switch] statement *)

Lemma updateFlag_inv (f : Z) (vm vm' : VM) :
  updateFlag f vm = Some vm' -> exists fl, setReg vm rCD fl = Some vm'.
Proof.
  unfold updateFlag. intros H.
  destruct (getReg vm f) as [v|]; [| discriminate]. cbn [mbind option_bind] in H.
  destruct (v =? 0x0); [eauto |].
  destruct (Z.shiftr v 15 =? 0x1); eauto.
Qed.

Lemma caseADD_inv (vm vm' : VM) (dst srcA flag srcB : Z) :
  caseADD vm dst srcA flag srcB = Some vm' ->
  exists v vm1 fl, setReg vm dst v = Some vm1 /\ setReg vm1 rCD fl = Some vm'.
Proof.
  unfold caseADD. intros H. apply bind_Some in H as (vm1 & H1 & H2).
  apply updateFlag_inv in H2 as [fl H2].
  destruct (flag =? 0x1).
  - apply bind_Some in H1 as (a & _ & H1). eauto.
  - apply bind_Some in H1 as (a & _ & H1).
    apply bind_Some in H1 as (b & _ & H1). eauto.
Qed.

(** The ADD case writes [registers[dst]] and [registers[rCD]] only. *)
Lemma caseADD_frame (vm vm' : VM) (dst srcA flag srcB r : Z) :
  caseADD vm dst srcA flag srcB = Some vm' ->
  0 <= r -> r <> dst -> r <> rCD ->
  getReg vm' r = getReg vm r /\ memory vm' = memory vm.
Proof.
  intros (v & vm1 & fl & H1 & H2)%caseADD_inv Hr Hd Hc. split.
  - rewrite (getReg_setReg_ne _ _ _ _ _ H2) by auto.
    apply (getReg_setReg_ne _ _ _ _ _ H1); auto.
  - rewrite (setReg_memory _ _ _ _ H2). exact (setReg_memory _ _ _ _ H1).
Qed.

Ltac case_opcode op :=
  let p := fresh "p" in
  destruct op as [|p|p]; cbn [Lc3vm.execute MainGo.execute];
  [ | do 4 (try destruct p as [p|p|]) | ].

(** Every case of the [switch] other than ADD leaves the machine as it is. *)
Lemma Lc3vm_execute_cases (vm : VM) (op dst srcA flag srcB : Z) :
  (op = opADD /\
   Lc3vm.execute vm op dst srcA flag srcB =
   vm' ← caseADD vm dst srcA flag srcB; Some (vm', true)) \/
  (op <> opADD /\
   Lc3vm.execute vm op dst srcA flag srcB = Some (vm, negb (op =? opTRA)) /\
   0 <= op < 15) \/
  (op <> opADD /\
   Lc3vm.execute vm op dst srcA flag srcB = Some (vm, false) /\
   ~ 0 <= op < 15).
Proof.
  unfold opADD, opTRA.
  case_opcode op;
    try (left; split; reflexivity);
    try (right; left; split; [discriminate | split; [reflexivity | lia]]);
    try (right; right; split; [discriminate | split; [reflexivity | lia]]).
Qed.

Lemma MainGo_execute_cases (vm : VM) (op dst srcA flag srcB : Z) :
  (op = opADD /\
   MainGo.execute vm op dst srcA flag srcB =
   vm' ← caseADD vm dst srcA flag srcB; Some (vm', true)) \/
  (op <> opADD /\
   MainGo.execute vm op dst srcA flag srcB =
   Some (vm, negb (op =? opTRA) && negb (op =? opBR)) /\
   0 <= op < 15) \/
  (op <> opADD /\
   MainGo.execute vm op dst srcA flag srcB = Some (vm, false) /\
   ~ 0 <= op < 15).
Proof.
  unfold opADD, opTRA, opBR.
  case_opcode op;
    try (left; split; reflexivity);
    try (right; left; split; [discriminate | split; [reflexivity | lia]]);
    try (right; right; split; [discriminate | split; [reflexivity | lia]]).
Qed.

(** No case of the [switch] writes the program counter. *)
Lemma Lc3vm_execute_frame (vm vm' : VM) (op dst srcA flag srcB : Z) (running : bool) :
  Lc3vm.execute vm op dst srcA flag srcB = Some (vm', running) ->
  0 <= dst < 8 ->
  getReg vm' rPC = getReg vm rPC /\ memory vm' = memory vm.
Proof.
  intros H Hdst.
  destruct (Lc3vm_execute_cases vm op dst srcA flag srcB)
    as [[_ E] | [(_ & E & _) | (_ & E & _)]]; rewrite E in H.
  - apply bind_Some in H as (vm1 & Hc & [= <- _]).
    apply (caseADD_frame _ _ _ _ _ _ rPC Hc); unfold rPC, rCD; lia.
  - injection H as <- _. split; reflexivity.
  - injection H as <- _. split; reflexivity.
Qed.

(** ** One iteration of the event loop *)

(** The fetch of lc3vm: the program counter is stepped first, then
    compared with the length of the memory, then used as the address. *)
Lemma Lc3vm_iteration_fetch (vm : VM) (pc instruction : Z) :
  getReg vm rPC = Some pc ->
  u16 (pc + 1) < u16 (Z.of_nat (length (memory vm))) ->
  read vm (u16 (pc + 1)) = Some instruction ->
  exists vm1,
    setReg vm rPC (u16 (pc + 1)) = Some vm1 /\
    Lc3vm.iteration vm =
    let '(op, dst, srcA, flag, srcB) := decode instruction in
    '(vm2, running) ← Lc3vm.execute vm1 op dst srcA flag srcB;
    Some (vm2, control_of running).
Proof.
  intros Hpc Hlt Hrd.
  pose proof (getReg_Some_range _ _ _ Hpc) as Hr.
  pose proof (setReg_in_range vm rPC (u16 (pc + 1)) Hr) as Hset.
  eexists. split; [exact Hset |].
  unfold Lc3vm.iteration. rewrite Hpc. cbn [mbind option_bind]. rewrite Hset.
  cbn [mbind option_bind]. rewrite (getReg_setReg_eq _ _ _ _ Hset).
  cbn [mbind option_bind memory].
  destruct (Z.leb_spec (u16 (Z.of_nat (length (memory vm)))) (u16 (pc + 1))); [lia |].
  unfold read in *. cbn [memory]. rewrite Hrd. reflexivity.
Qed.

Lemma MainGo_iteration_fetch (vm : VM) (pc instruction : Z) :
  getReg vm rPC = Some pc ->
  read vm (u16 (pc + 1)) = Some instruction ->
  exists vm1,
    setReg vm rPC (u16 (pc + 1)) = Some vm1 /\
    MainGo.iteration vm =
    let '(op, dst, srcA, flag, srcB) := decode instruction in
    '(vm2, running) ← MainGo.execute vm1 op dst srcA flag srcB;
    Some (vm2, control_of running).
Proof.
  intros Hpc Hrd.
  pose proof (getReg_Some_range _ _ _ Hpc) as Hr.
  pose proof (setReg_in_range vm rPC (u16 (pc + 1)) Hr) as Hset.
  eexists. split; [exact Hset |].
  unfold MainGo.iteration. rewrite Hpc. cbn [mbind option_bind]. rewrite Hset.
  cbn [mbind option_bind]. rewrite (getReg_setReg_eq _ _ _ _ Hset).
  cbn [mbind option_bind].
  unfold read in *. cbn [memory]. rewrite Hrd. reflexivity.
Qed.

(** The guard of lc3vm: once the stepped program counter is not below the
    length of the memory, the loop is left before anything is fetched. *)
Lemma Lc3vm_iteration_guard (vm : VM) (pc : Z) :
  getReg vm rPC = Some pc ->
  u16 (Z.of_nat (length (memory vm))) <= u16 (pc + 1) ->
  exists vm1,
    setReg vm rPC (u16 (pc + 1)) = Some vm1 /\
    Lc3vm.iteration vm = Some (vm1, Break).
Proof.
  intros Hpc Hge.
  pose proof (getReg_Some_range _ _ _ Hpc) as Hr.
  pose proof (setReg_in_range vm rPC (u16 (pc + 1)) Hr) as Hset.
  eexists. split; [exact Hset |].
  unfold Lc3vm.iteration. rewrite Hpc. cbn [mbind option_bind]. rewrite Hset.
  cbn [mbind option_bind]. rewrite (getReg_setReg_eq _ _ _ _ Hset).
  cbn [mbind option_bind memory].
  destruct (Z.leb_spec (u16 (Z.of_nat (length (memory vm)))) (u16 (pc + 1))); [| lia].
  reflexivity.
Qed.

(** What a completed iteration of lc3vm tells about the program counter. *)
Lemma Lc3vm_iteration_inv (vm vm' : VM) (c : Control) :
  Lc3vm.iteration vm = Some (vm', c) ->
  exists pc,
    getReg vm rPC = Some pc /\
    getReg vm' rPC = Some (u16 (pc + 1)) /\
    memory vm' = memory vm /\
    (c = Continue -> u16 (pc + 1) < u16 (Z.of_nat (length (memory vm)))).
Proof.
  intros H.
  destruct (getReg vm rPC) as [pc|] eqn:Hpc;
    [| unfold Lc3vm.iteration in H; rewrite Hpc in H; discriminate].
  exists pc. split; [reflexivity |].
  destruct (Z.le_gt_cases (u16 (Z.of_nat (length (memory vm)))) (u16 (pc + 1)))
    as [Hge | Hlt].
  - destruct (Lc3vm_iteration_guard vm pc Hpc Hge) as (vm1 & Hset & Hit).
    rewrite Hit in H. injection H as <- <-.
    split; [exact (getReg_setReg_eq _ _ _ _ Hset) |].
    split; [exact (setReg_memory _ _ _ _ Hset) | discriminate].
  - assert (Hin : 0 <= u16 (pc + 1) < Z.of_nat (length (memory vm))).
    { pose proof (u16_range (pc + 1)) as Hu. unfold is_u16 in Hu.
      split; [lia |]. unfold u16 in Hlt at 2.
      pose proof (Z.mod_le (Z.of_nat (length (memory vm))) 65536). lia. }
    destruct (read_in_range vm _ Hin) as [instruction Hrd].
    destruct (Lc3vm_iteration_fetch vm pc instruction Hpc Hlt Hrd) as (vm1 & Hset & Hit).
    rewrite Hit in H.
    destruct (decode instruction) as [[[[op dst] srcA] flag] srcB] eqn:Hdec.
    apply decode_fields_range in Hdec as (Hdst & _).
    apply bind_Some in H as ([vm2 running] & He & [= <- _]).
    apply Lc3vm_execute_frame in He as [Hpc' Hmem]; [| exact Hdst].
    rewrite Hpc', Hmem.
    split; [exact (getReg_setReg_eq _ _ _ _ Hset) |].
    split; [exact (setReg_memory _ _ _ _ Hset) | auto].
Qed.

(** ** The event loop *)

Lemma Lc3vm_run_bounded (fuel : nat) :
  forall vm,
    (0 < fuel)%nat ->
    (forall pc, getReg vm rPC = Some pc -> (65534 - pc) mod 65536 < Z.of_nat fuel) ->
    Lc3vm.run fuel vm <> OutOfFuel.
Proof.
  induction fuel as [| fuel IH]; intros vm Hpos Hdist; [lia |].
  cbn [Lc3vm.run].
  destruct (Lc3vm.iteration vm) as [[vm' [|]]|] eqn:Hit; try discriminate.
  apply Lc3vm_iteration_inv in Hit as (pc & Hpc & Hpc' & _ & Hlt).
  specialize (Hlt eq_refl). specialize (Hdist pc Hpc).
  assert (Hlen : u16 (Z.of_nat (length (memory vm))) < 65536)
    by (pose proof (u16_range (Z.of_nat (length (memory vm)))) as Hu;
        unfold is_u16 in Hu; lia).
  pose proof (u16_range (pc + 1)) as Hq. unfold is_u16 in Hq.
  assert (Hd : (65534 - pc) mod 65536 = 65535 - u16 (pc + 1)).
  { unfold u16 in *. clear IH Hdist Hpc Hpc'. Z.div_mod_to_equations. lia. }
  apply IH.
  - lia.
  - intros pc1 Hpc1. rewrite Hpc' in Hpc1. injection Hpc1 as <-.
    rewrite Z.mod_small by lia. lia.
Qed.

Lemma Lc3vm_run_more_fuel (fuel : nat) :
  forall vm extra,
    Lc3vm.run fuel vm <> OutOfFuel ->
    Lc3vm.run (fuel + extra) vm = Lc3vm.run fuel vm.
Proof.
  induction fuel as [| fuel IH]; intros vm extra H; [now contradict H |].
  cbn [Lc3vm.run Nat.add] in *.
  destruct (Lc3vm.iteration vm) as [[vm' [|]]|]; try reflexivity.
  apply IH. exact H.
Qed.

(** ** One step on the ADD word [0x1024] *)

(** C4, as stated, fails: [0x1024] decodes to destination R0, source R0,
    immediate 4, so from the machine of the claim (zeroed but for the ADD
    word at [0x3000], [R1 = 1] and [PC = 0x2FFF]) one step gives [R0 = 4],
    not 5, and the program counter stays at the fetched address [0x3000],
    not [0x3001]; the flags do hold P. *)
Lemma add_demo_step_not_as_claimed :
  read add_demo 0x3000 = Some 0x1024 /\
  getReg add_demo r1 = Some 1 /\
  getReg add_demo rPC = Some 0x2FFF /\
  decode 0x1024 = (opADD, r0, r0, 1, 4) /\
  (p ← Lc3vm.iteration add_demo;
   Some (getReg p.1 r0, getReg p.1 rCD, getReg p.1 rPC, p.2))
  = Some (Some 4, Some flPOS, Some 0x3000, Continue) /\
  ~ (exists vm' c,
       Lc3vm.iteration add_demo = Some (vm', c) /\
       getReg vm' r0 = Some 5 /\
       getReg vm' rCD = Some flPOS /\
       getReg vm' rPC = Some 0x3001).
Proof.
  assert (Hstep : (p ← Lc3vm.iteration add_demo;
                   Some (getReg p.1 r0, getReg p.1 rCD, getReg p.1 rPC, p.2))
                  = Some (Some 4, Some flPOS, Some 0x3000, Continue))
    by (vm_compute; reflexivity).
  split; [vm_compute; reflexivity |].
  split; [vm_compute; reflexivity |].
  split; [vm_compute; reflexivity |].
  split; [reflexivity |].
  split; [exact Hstep |].
  intros (vm' & c & Hit & H0 & _ & _).
  rewrite Hit in Hstep. cbn [mbind option_bind fst] in Hstep.
  rewrite H0 in Hstep. discriminate Hstep.
Qed.

(** C4, amended: starting from a VM whose memory holds the ADD encoding
    [0x1024] at address [0x3000], with [R1 = 1] and [PC = 0x2FFF] before the
    loop's pre-increment, after exactly one fetch-decode-execute step R0 is
    its old value plus 4 (mod 2^16), so 4 when R0 was 0, the condition
    flags are those of that sum, so P when R0 was 0, and [PC = 0x3000];
    R1 is still 1 and the loop keeps running.  Both event loops agree. *)
Theorem add_demo_step (vm : VM) (a : Z) :
  Z.of_nat (length (memory vm)) = MaxUint16 ->
  Z.of_nat (length (registers vm)) = rCN ->
  read vm 0x3000 = Some 0x1024 ->
  getReg vm r1 = Some 1 ->
  getReg vm rPC = Some 0x2FFF ->
  getReg vm r0 = Some a ->
  exists vm',
    Lc3vm.iteration vm = Some (vm', Continue) /\
    MainGo.iteration vm = Some (vm', Continue) /\
    getReg vm' r0 = Some (u16 (a + 4)) /\
    getReg vm' rCD = Some (flag_of (u16 (a + 4))) /\
    (a = 0 -> getReg vm' r0 = Some 4 /\ getReg vm' rCD = Some flPOS) /\
    getReg vm' rPC = Some 0x3000 /\
    getReg vm' r1 = Some 1.
Proof.
  intros Hmem Hregs Hrd H1 Hpc H0.
  assert (Hnext : u16 (0x2FFF + 1) = 0x3000) by reflexivity.
  destruct (Lc3vm_iteration_fetch vm 0x2FFF 0x1024 Hpc) as (vm1 & Hset & Hit).
  { rewrite Hmem. vm_compute. reflexivity. }
  { rewrite Hnext. exact Hrd. }
  destruct (MainGo_iteration_fetch vm 0x2FFF 0x1024 Hpc) as (vm1' & Hset' & Hit').
  { rewrite Hnext. exact Hrd. }
  rewrite Hset in Hset'. injection Hset' as <-.
  change (decode 0x1024) with (1, 0, 0, 1, 4) in Hit, Hit'.
  cbn beta iota in Hit, Hit'.
  cbn [Lc3vm.execute] in Hit. cbn [MainGo.execute] in Hit'.
  assert (H0' : getReg vm1 0 = Some a).
  { rewrite (getReg_setReg_ne _ _ _ _ _ Hset) by (unfold rPC; lia). exact H0. }
  destruct (caseADD_spec vm1 0 0 1 4 a 4) as (vm' & Hc & Hd & Hcc & Hoth & _).
  { rewrite (setReg_length _ _ _ _ Hset). exact Hregs. }
  { lia. }
  { exact H0'. }
  { left. split; reflexivity. }
  rewrite Hc in Hit, Hit'. cbn [mbind option_bind control_of] in Hit, Hit'.
  exists vm'. split; [exact Hit |]. split; [exact Hit' |].
  split; [exact Hd |]. split; [exact Hcc |].
  split; [intros ->; split; [exact Hd | exact Hcc] |].
  split.
  - rewrite (Hoth rPC) by (unfold rPC, rCD; lia).
    rewrite (getReg_setReg_eq _ _ _ _ Hset). now rewrite Hnext.
  - rewrite (Hoth r1) by (unfold r1, rCD; lia).
    rewrite (getReg_setReg_ne _ _ _ _ _ Hset) by (unfold r1, rPC; lia). exact H1.
Qed.

Lemma add_demo_step_witness :
  exists vm',
    Lc3vm.iteration add_demo = Some (vm', Continue) /\
    getReg vm' r0 = Some 4 /\
    getReg vm' rCD = Some flPOS /\
    getReg vm' rPC = Some 0x3000.
Proof.
  destruct (add_demo_step add_demo 0) as (vm' & Hit & _ & _ & _ & Hz & Hpc & _).
  - vm_compute. reflexivity.
  - vm_compute. reflexivity.
  - vm_compute. reflexivity.
  - vm_compute. reflexivity.
  - vm_compute. reflexivity.
  - vm_compute. reflexivity.
  - destruct (Hz eq_refl) as [H0 Hcc].
    exists vm'. split; [exact Hit |]. split; [exact H0 |]. split; [exact Hcc | exact Hpc].
Defined.

(** ** RTI and RES *)

(** C8, as stated, fails: with the RTI word [0x8000] and the RES word
    [0xD000] as the next two instructions, neither iteration leaves the
    loop: both return [Continue], two iterations do not end the run, and
    the machine afterwards differs from the start in the program counter
    alone.  No fault is raised and the loop does not stop. *)
Lemma rti_res_do_not_stop_the_loop :
  read rti_demo (pcStart + 1) = Some 0x8000 /\
  read rti_demo (pcStart + 2) = Some 0xD000 /\
  (decode 0x8000).1.1.1.1 = opRTI /\
  (decode 0xD000).1.1.1.1 = opRES /\
  (p ← Lc3vm.iteration rti_demo; q ← Lc3vm.iteration p.1;
   Some (p.2, q.2, registers q.1))
  = Some (Continue, Continue, <[Z.to_nat rPC := pcStart + 2]> (make rCN)) /\
  (p ← MainGo.iteration rti_demo; q ← MainGo.iteration p.1;
   Some (p.2, q.2, registers q.1))
  = Some (Continue, Continue, <[Z.to_nat rPC := pcStart + 2]> (make rCN)) /\
  Lc3vm.run 2 rti_demo = OutOfFuel /\
  ~ (exists vm', Lc3vm.iteration rti_demo = Some (vm', Break)).
Proof.
  assert (Hstep : (p ← Lc3vm.iteration rti_demo; Some p.2) = Some Continue)
    by (vm_compute; reflexivity).
  split; [vm_compute; reflexivity |].
  split; [vm_compute; reflexivity |].
  split; [reflexivity |].
  split; [reflexivity |].
  split; [vm_compute; reflexivity |].
  split; [vm_compute; reflexivity |].
  split; [vm_compute; reflexivity |].
  intros (vm' & Hit). rewrite Hit in Hstep. discriminate Hstep.
Qed.

(** C8, amended: whenever an instruction with opcode RTI (0x8) or RES (0xD)
    is fetched and decoded, the executor raises no fault: the case is
    empty, so the instruction applies no register, flag or memory
    mutation (the machine changes by the loop's own increment of the
    program counter only) and the run loop goes on to the next iteration.
    Both event loops agree. *)
Theorem rti_res_are_empty_cases (vm : VM) (pc instruction : Z) :
  getReg vm rPC = Some pc ->
  u16 (pc + 1) < u16 (Z.of_nat (length (memory vm))) ->
  read vm (u16 (pc + 1)) = Some instruction ->
  Z.shiftr instruction 12 = opRTI \/ Z.shiftr instruction 12 = opRES ->
  exists vm1,
    setReg vm rPC (u16 (pc + 1)) = Some vm1 /\
    Lc3vm.iteration vm = Some (vm1, Continue) /\
    MainGo.iteration vm = Some (vm1, Continue) /\
    memory vm1 = memory vm /\
    (forall r, 0 <= r -> r <> rPC -> getReg vm1 r = getReg vm r).
Proof.
  intros Hpc Hlt Hrd Hop.
  destruct (Lc3vm_iteration_fetch vm pc instruction Hpc Hlt Hrd) as (vm1 & Hset & Hit).
  destruct (MainGo_iteration_fetch vm pc instruction Hpc Hrd) as (vm1' & Hset' & Hit').
  rewrite Hset in Hset'. injection Hset' as <-.
  exists vm1. split; [exact Hset |].
  unfold decode in Hit, Hit'.
  split; [| split; [| split]].
  - rewrite Hit. destruct Hop as [-> | ->]; reflexivity.
  - rewrite Hit'. destruct Hop as [-> | ->]; reflexivity.
  - exact (setReg_memory _ _ _ _ Hset).
  - intros r Hr Hne. apply (getReg_setReg_ne _ _ _ _ _ Hset); auto.
Qed.

Lemma rti_res_are_empty_cases_witness :
  exists vm1,
    Lc3vm.iteration rti_demo = Some (vm1, Continue) /\
    memory vm1 = memory rti_demo /\
    getReg vm1 rCD = getReg rti_demo rCD.
Proof.
  destruct (rti_res_are_empty_cases rti_demo pcStart 0x8000)
    as (vm1 & _ & Hit & _ & Hmem & Hregs).
  - vm_compute. reflexivity.
  - vm_compute. reflexivity.
  - vm_compute. reflexivity.
  - left. reflexivity.
  - exists vm1. split; [exact Hit |]. split; [exact Hmem |].
    apply Hregs; unfold rCD, rPC; lia.
Defined.

(** ** Termination of the event loop of lc3vm *)

(** C10: the run loop of the second file terminates whatever the memory
    and the registers hold.  No case of the switch writes the program
    counter (the destination field has three bits, so a case writes one of
    R0..R7, besides the condition register at index 9, while PC has index
    8); a completed iteration leaves the program counter at its old value
    plus 1 (mod 2^16); the loop is left as soon as the stepped program
    counter reaches the length of the memory; so at most 65536 iterations
    are made, after which the run has ended, by leaving the loop or by a
    panic, and more fuel does not change the outcome. *)
Theorem run_always_terminates (vm : VM) :
  (forall instruction op dst srcA flag srcB vm' running,
     decode instruction = (op, dst, srcA, flag, srcB) ->
     Lc3vm.execute vm op dst srcA flag srcB = Some (vm', running) ->
     0 <= dst < 8 /\ getReg vm' rPC = getReg vm rPC) /\
  (forall vm' c,
     Lc3vm.iteration vm = Some (vm', c) ->
     exists pc, getReg vm rPC = Some pc /\ getReg vm' rPC = Some (u16 (pc + 1))) /\
  (forall pc,
     getReg vm rPC = Some pc ->
     u16 (Z.of_nat (length (memory vm))) <= u16 (pc + 1) ->
     exists vm', Lc3vm.iteration vm = Some (vm', Break)) /\
  (exists outcome,
     outcome <> OutOfFuel /\
     forall fuel, (Z.to_nat 65536 <= fuel)%nat -> Lc3vm.run fuel vm = outcome).
Proof.
  split; [| split; [| split]].
  - intros instruction op dst srcA flag srcB vm' running Hdec He.
    apply decode_fields_range in Hdec as (Hdst & _).
    split; [exact Hdst |]. now apply Lc3vm_execute_frame in He as [Hpc _].
  - intros vm' c Hit.
    apply Lc3vm_iteration_inv in Hit as (pc & Hpc & Hpc' & _). eauto.
  - intros pc Hpc Hge.
    destruct (Lc3vm_iteration_guard vm pc Hpc Hge) as (vm1 & _ & Hit). eauto.
  - assert (Hrun : Lc3vm.run (Z.to_nat 65536) vm <> OutOfFuel).
    { apply Lc3vm_run_bounded.
      - lia.
      - intros pc _. rewrite Z2Nat.id by lia. apply Z.mod_pos_bound. lia. }
    exists (Lc3vm.run (Z.to_nat 65536) vm). split; [exact Hrun |].
    intros fuel Hfuel.
    replace fuel with (Z.to_nat 65536 + (fuel - Z.to_nat 65536))%nat by lia.
    now apply Lc3vm_run_more_fuel.
Qed.

(** * Further properties of the code *)

(** ** [decode] loses nothing *)

Lemma bits_range (r hi lo : Z) : lo <= hi -> 0 <= bits r hi lo < 2 ^ (hi - lo + 1).
Proof. intros H. unfold bits. apply Z.mod_pos_bound. apply Z.pow_pos_nonneg; lia. Qed.

Lemma decode_sum (r : Z) :
  is_u16 r ->
  r = bits r 15 12 * 4096 + bits r 11 9 * 512 + bits r 8 6 * 64
      + bits r 5 5 * 32 + bits r 4 0.
Proof.
  intros Hr. unfold is_u16 in Hr. unfold bits.
  change (2 ^ 12) with 4096. change (2 ^ 9) with 512. change (2 ^ 6) with 64.
  change (2 ^ 5) with 32. change (2 ^ 0) with 1.
  change (2 ^ (15 - 12 + 1)) with 16. change (2 ^ (11 - 9 + 1)) with 8.
  change (2 ^ (8 - 6 + 1)) with 8. change (2 ^ (5 - 5 + 1)) with 2.
  change (2 ^ (4 - 0 + 1)) with 32.
  Z.div_mod_to_equations. lia.
Qed.

(** X1: the five fields [decode] returns are within their widths and put the
    instruction word together again, [op<<12 | dst<<9 | srcA<<6 | flag<<5 |
    srcB], so that two 16-bit words with the same fields are the same
    word. *)
Theorem decode_reassembles (r op dst srcA flag srcB : Z) :
  is_u16 r ->
  decode r = (op, dst, srcA, flag, srcB) ->
  (0 <= op < 16 /\ 0 <= dst < 8 /\ 0 <= srcA < 8 /\ 0 <= flag < 2 /\ 0 <= srcB < 32) /\
  r = op * 4096 + dst * 512 + srcA * 64 + flag * 32 + srcB /\
  r = Z.lor (Z.shiftl op 12)
        (Z.lor (Z.shiftl dst 9) (Z.lor (Z.shiftl srcA 6) (Z.lor (Z.shiftl flag 5) srcB))) /\
  (forall r', is_u16 r' -> decode r' = decode r -> r' = r).
Proof.
  intros Hr Hdec.
  pose proof (decode_fields_range _ _ _ _ _ _ Hdec) as (Hd & Ha & Hf & Hb).
  pose proof (decode_sum r Hr) as Hsum.
  pose proof Hdec as Hdec'.
  rewrite (decode_alt r Hr) in Hdec'. injection Hdec' as Eop Edst EsrcA Eflag EsrcB.
  assert (Hop : 0 <= op < 16).
  { rewrite <- Eop. pose proof (bits_range r 15 12). change (2 ^ (15 - 12 + 1)) with 16 in *. lia. }
  rewrite Eop, Edst, EsrcA, Eflag, EsrcB in Hsum.
  split; [repeat split; lia |]. split; [exact Hsum |]. split.
  - rewrite Hsum at 1. unfold decode in Hdec. injection Hdec as E1 E2 E3 E4 E5.
    rewrite <- E1 at 2. rewrite <- E2 at 2. rewrite <- E3 at 2. rewrite <- E4 at 2.
    rewrite <- E5 at 2. rewrite <- Hsum.
    apply Z.bits_inj'. intros n Hn.
    rewrite !Z.lor_spec, !Z.land_spec.
    destruct (Z.ltb_spec n 5); [| destruct (Z.ltb_spec n 6);
      [| destruct (Z.ltb_spec n 9); [| destruct (Z.ltb_spec n 12)]]].
    + rewrite !Z.shiftl_spec_low by lia. simpl.
      change 0x1F with (Z.ones 5). rewrite Z.ones_spec_low by lia. now rewrite andb_true_r.
    + rewrite (Z.shiftl_spec_low _ 12), (Z.shiftl_spec_low _ 9), (Z.shiftl_spec_low _ 6) by lia.
      rewrite Z.shiftl_spec, Z.land_spec, Z.shiftr_spec by lia.
      replace (n - 5 + 5) with n by lia. replace (n - 5) with 0 by lia.
      change 0x1F with (Z.ones 5). rewrite Z.ones_spec_high by lia.
      simpl. now rewrite andb_true_r, andb_false_r, orb_false_r.
    + rewrite (Z.shiftl_spec_low _ 12), (Z.shiftl_spec_low _ 9) by lia.
      rewrite !Z.shiftl_spec, !Z.land_spec, !Z.shiftr_spec by lia.
      replace (n - 6 + 6) with n by lia.
      change 0x7 with (Z.ones 3). change 0x1 with (Z.ones 1). change 0x1F with (Z.ones 5).
      rewrite (Z.ones_spec_low 3), (Z.ones_spec_high 1), (Z.ones_spec_high 5) by lia.
      simpl. now rewrite andb_true_r, !andb_false_r, !orb_false_r.
    + rewrite (Z.shiftl_spec_low _ 12) by lia.
      rewrite !Z.shiftl_spec, !Z.land_spec, !Z.shiftr_spec by lia.
      replace (n - 9 + 9) with n by lia.
      change 0x7 with (Z.ones 3). change 0x1 with (Z.ones 1). change 0x1F with (Z.ones 5).
      rewrite (Z.ones_spec_low 3 (n - 9)), (Z.ones_spec_high 3 (n - 6)),
        (Z.ones_spec_high 1), (Z.ones_spec_high 5) by lia.
      simpl. now rewrite andb_true_r, !andb_false_r, !orb_false_r.
    + rewrite !Z.shiftl_spec, !Z.land_spec, !Z.shiftr_spec by lia.
      replace (n - 12 + 12) with n by lia.
      change 0x7 with (Z.ones 3). change 0x1 with (Z.ones 1). change 0x1F with (Z.ones 5).
      rewrite (Z.ones_spec_high 3 (n - 9)), (Z.ones_spec_high 3 (n - 6)),
        (Z.ones_spec_high 1), (Z.ones_spec_high 5) by lia.
      simpl. now rewrite !andb_false_r, !orb_false_r.
  - intros r' Hr' Heq. rewrite (decode_alt r Hr), (decode_alt r' Hr') in Heq.
    injection Heq as F1 F2 F3 F4 F5.
    rewrite (decode_sum r Hr), (decode_sum r' Hr'). now rewrite F1, F2, F3, F4, F5.
Qed.

Lemma decode_reassembles_witness :
  0x1024 = 1 * 4096 + 0 * 512 + 0 * 64 + 1 * 32 + 4 /\
  (forall r', is_u16 r' -> decode r' = decode 0x1024 -> r' = 0x1024).
Proof.
  assert (H : is_u16 0x1024) by (unfold is_u16; lia).
  destruct (decode_reassembles 0x1024 1 0 0 1 4 H eq_refl) as (_ & Hsum & _ & Hinj).
  split; [exact Hsum | exact Hinj].
Defined.

(** ** [read] and [write] as a store *)

(** X2: [read] and [write] succeed on exactly the same addresses, those below
    the length of the memory, and a write never changes that length or the
    registers: no write can turn a panicking address into a valid one. *)
Theorem read_write_bounds (vm : VM) (address value : Z) :
  (is_Some (read vm address) <-> 0 <= address < Z.of_nat (length (memory vm))) /\
  (is_Some (write vm address value) <-> 0 <= address < Z.of_nat (length (memory vm))) /\
  (forall vm', write vm address value = Some vm' ->
     length (memory vm') = length (memory vm) /\ registers vm' = registers vm /\
     forall other, is_Some (read vm' other) <-> is_Some (read vm other)).
Proof.
  assert (Hrd : forall m a, is_Some (read m a) <-> 0 <= a < Z.of_nat (length (memory m))).
  { intros m a. split.
    - intros [w Hw]. now apply index_Some in Hw.
    - intros Ha. destruct (read_in_range m a Ha) as [w Hw]. now exists w. }
  split; [apply Hrd |]. split.
  - split.
    + intros [vm' Hw]. now apply write_Some in Hw.
    + intros Ha. eexists. apply write_Some. split; [exact Ha | reflexivity].
  - intros vm' Hw. apply write_Some in Hw as [Ha ->]. cbn [memory registers].
    split; [apply length_insert |]. split; [reflexivity |].
    intros other. rewrite !Hrd. cbn [memory]. now rewrite length_insert.
Qed.

(** X3: of two writes to one address the later one wins. *)
Theorem write_write_same (vm vm1 : VM) (address v1 v2 : Z) :
  write vm address v1 = Some vm1 ->
  write vm1 address v2 = write vm address v2.
Proof.
  intros [Ha ->]%write_Some. unfold write at 1 2. cbn [memory registers].
  unfold assign. rewrite length_insert.
  rewrite !bool_decide_eq_true_2 by exact Ha. cbn [mbind option_bind].
  now rewrite list_insert_insert_eq.
Qed.

Lemma write_write_same_witness :
  exists vm1, write blank rKBDR 0x41 = Some vm1 /\
              write vm1 rKBDR 0x42 = write blank rKBDR 0x42.
Proof.
  assert (Hw : write blank rKBDR 0x41 =
               Some {| memory := <[Z.to_nat rKBDR := 0x41]> (memory blank);
                       registers := registers blank |}).
  { apply write_Some. split; [vm_compute; split; [discriminate | reflexivity] | reflexivity]. }
  eexists. split; [exact Hw |]. exact (write_write_same _ _ rKBDR 0x41 0x42 Hw).
Defined.

(** X4: writes to two different addresses can be done in either order, with
    the same memory or the same panic as a result. *)
Theorem write_write_commute (vm : VM) (a b v w : Z) :
  a <> b ->
  (vm1 ← write vm a v; write vm1 b w) = (vm2 ← write vm b w; write vm2 a v).
Proof.
  intros Hne. unfold write, assign. cbn [memory registers].
  destruct (bool_decide (0 <= a < Z.of_nat (length (memory vm)))) eqn:Ea;
    destruct (bool_decide (0 <= b < Z.of_nat (length (memory vm)))) eqn:Eb;
    cbn [mbind option_bind memory registers]; rewrite ?length_insert, ?Ea, ?Eb;
    cbn [mbind option_bind]; try reflexivity.
  apply bool_decide_eq_true_1 in Ea, Eb.
  rewrite list_insert_insert_ne by lia. reflexivity.
Qed.

Lemma write_write_commute_witness :
  rKBSR <> rKBDR /\
  (vm1 ← write blank rKBSR 0x8000; write vm1 rKBDR 0x41) =
  (vm2 ← write blank rKBDR 0x41; write vm2 rKBSR 0x8000).
Proof.
  assert (H : rKBSR <> rKBDR) by discriminate.
  split; [exact H |]. exact (write_write_commute blank rKBSR rKBDR 0x8000 0x41 H).
Defined.

(** ** [signExtend] in closed form *)

Lemma shifted_ones (count : Z) :
  1 <= count <= 16 -> u16 (Z.shiftl 0xFFFF count) = 65536 - 2 ^ count.
Proof.
  intros Hc. unfold u16. rewrite Z.shiftl_mul_pow2 by lia.
  assert (Hlo : 2 ^ 1 <= 2 ^ count) by (apply Z.pow_le_mono_r; lia).
  assert (Hhi : 2 ^ count <= 2 ^ 16) by (apply Z.pow_le_mono_r; lia).
  change (2 ^ 1) with 2 in Hlo. change (2 ^ 16) with 65536 in Hhi.
  symmetry. apply (Z.mod_unique_pos _ _ (2 ^ count - 1)); lia.
Qed.

(** X5: for a field width from 1 to 16, [signExtend] returns its argument
    unchanged when bit [count - 1] is clear and the constant [65536 -
    2^count] when it is set: the high bits are filled with ones and the low
    [count] bits are zero whatever the argument was, so all arguments with
    the sign bit set give one and the same result. *)
Theorem signExtend_closed_form (x count : Z) :
  1 <= count <= 16 ->
  signExtend x count = (if Z.testbit x (count - 1) then 65536 - 2 ^ count else x) /\
  (forall y, Z.testbit x (count - 1) = true -> Z.testbit y (count - 1) = true ->
             signExtend y count = signExtend x count).
Proof.
  intros Hc.
  assert (Hm : (count - 1) mod 2 ^ 64 = count - 1).
  { apply Z.mod_small. change (2 ^ 64) with 18446744073709551616. lia. }
  assert (Hform : forall z, signExtend z count =
                     if Z.testbit z (count - 1) then 65536 - 2 ^ count else z).
  { intros z. destruct (Z.testbit z (count - 1)) eqn:Hb.
    - rewrite signExtend_sign_set by (now rewrite Hm). now apply shifted_ones.
    - apply signExtend_sign_clear. now rewrite Hm. }
  split; [apply Hform |].
  intros y Hx Hy. now rewrite (Hform y), (Hform x), Hx, Hy.
Qed.

Lemma signExtend_closed_form_witness :
  signExtend 0x1F 5 = 65536 - 2 ^ 5 /\ signExtend 0x10 5 = signExtend 0x1F 5.
Proof.
  assert (H : 1 <= 5 <= 16) by lia.
  destruct (signExtend_closed_form 0x1F 5 H) as [Hf Hsame].
  split; [exact Hf |]. apply Hsame; reflexivity.
Defined.

(** X6: on a 16-bit argument [signExtend] is the identity for the width 0,
    where [count - 1] wraps around to the largest [uint], and for every
    width above 16: the bit it tests lies outside the word. *)
Theorem signExtend_identity_outside_word (x count : Z) :
  is_u16 x ->
  count = 0 \/ 16 < count < 2 ^ 64 ->
  signExtend x count = x.
Proof.
  intros Hx Hc. apply signExtend_sign_clear.
  apply (is_u16_high_bits x _ Hx).
  destruct Hc as [-> | Hc].
  - vm_compute. discriminate.
  - rewrite Z.mod_small by lia. lia.
Qed.

Lemma signExtend_identity_outside_word_witness :
  signExtend 0xFFFF 0 = 0xFFFF /\ signExtend 0xFFFF 17 = 0xFFFF.
Proof.
  assert (H : is_u16 0xFFFF) by (unfold is_u16; lia).
  split.
  - apply (signExtend_identity_outside_word 0xFFFF 0 H). left. reflexivity.
  - apply (signExtend_identity_outside_word 0xFFFF 17 H). right.
    change (2 ^ 64) with 18446744073709551616. lia.
Defined.

(** ** [swap] exchanges the two bytes *)

Lemma byte_high_bits (b n : Z) : 0 <= b < 256 -> 8 <= n -> Z.testbit b n = false.
Proof.
  intros Hb Hn. rewrite <- (Z.mod_small b (2 ^ 8)) by (change (2 ^ 8) with 256; lia).
  apply Z.mod_pow2_bits_high. lia.
Qed.

Lemma bytes_bits (hi lo n : Z) :
  0 <= hi < 256 -> 0 <= lo < 256 -> 0 <= n ->
  Z.testbit (hi * 256 + lo) n = if n <? 8 then Z.testbit lo n else Z.testbit hi (n - 8).
Proof.
  intros Hhi Hlo Hn.
  assert (Hdis : Z.land (Z.shiftl hi 8) lo = 0).
  { apply Z.bits_inj'. intros m Hm. rewrite Z.land_spec, Z.bits_0.
    destruct (Z.ltb_spec m 8).
    - rewrite Z.shiftl_spec_low by lia. reflexivity.
    - rewrite (byte_high_bits lo m) by lia. apply andb_false_r. }
  change 256 with (2 ^ 8). rewrite <- Z.shiftl_mul_pow2 by lia.
  rewrite Z.add_nocarry_lxor, Z.lxor_lor, Z.lor_spec by exact Hdis.
  destruct (Z.ltb_spec n 8).
  - rewrite Z.shiftl_spec_low by lia. reflexivity.
  - rewrite Z.shiftl_spec, (byte_high_bits lo n) by lia. apply orb_false_r.
Qed.

(** X7: on the word made of a high byte [hi] and a low byte [lo], [swap]
    returns the word made of the high byte [lo] and the low byte [hi]; the
    result is again a 16-bit word. *)
Theorem swap_exchanges_bytes (hi lo : Z) :
  0 <= hi < 256 -> 0 <= lo < 256 ->
  swap (hi * 256 + lo) = lo * 256 + hi /\ is_u16 (swap (hi * 256 + lo)).
Proof.
  intros Hhi Hlo.
  assert (E : swap (hi * 256 + lo) = lo * 256 + hi).
  { apply Z.bits_inj'. intros n Hn.
    rewrite swap_bits by lia.
    rewrite (bytes_bits lo hi n), (bytes_bits hi lo (n + 8)) by lia.
    replace (n + 8 - 8) with n by lia.
    destruct (Z.ltb_spec (n + 8) 8); [lia |].
    destruct (Z.leb_spec 8 n), (Z.ltb_spec n 16), (Z.ltb_spec n 8); try lia; simpl.
    - rewrite bytes_bits by lia. destruct (Z.ltb_spec (n - 8) 8); [| lia].
      rewrite (byte_high_bits hi n) by lia. apply orb_false_r.
    - rewrite (byte_high_bits hi n), (byte_high_bits lo (n - 8)) by lia. reflexivity.
    - reflexivity. }
  split; [exact E |]. rewrite E. unfold is_u16. lia.
Qed.

Lemma swap_exchanges_bytes_witness : swap (0x12 * 256 + 0x34) = 0x34 * 256 + 0x12.
Proof. apply (swap_exchanges_bytes 0x12 0x34); lia. Defined.

(** ** [updateFlag] *)

(** X8: calling [updateFlag] twice on a register other than the condition
    register gives the state of the first call: what the call computes
    depends on the tested register alone. *)
Theorem updateFlag_idempotent (vm vm' : VM) (f : Z) :
  f <> rCD ->
  updateFlag f vm = Some vm' ->
  updateFlag f vm' = Some vm'.
Proof.
  intros Hne Hu.
  unfold updateFlag in Hu |- *.
  destruct (getReg vm f) as [v|] eqn:Hf; [| discriminate].
  cbn [mbind option_bind] in Hu.
  assert (Hf0 : 0 <= f) by (apply getReg_Some_range in Hf; lia).
  assert (Hkeep : forall fl, setReg vm rCD fl = Some vm' ->
            getReg vm' f = Some v /\ setReg vm' rCD fl = Some vm').
  { intros fl Hs. split.
    - rewrite (getReg_setReg_ne _ _ _ _ _ Hs) by auto. exact Hf.
    - apply setReg_Some in Hs as [Hr ->]. apply setReg_Some. cbn [memory registers].
      rewrite length_insert. split; [exact Hr |]. now rewrite list_insert_insert_eq. }
  destruct (v =? 0x0) eqn:Hz.
  - destruct (Hkeep _ Hu) as [-> Hs]. cbn [mbind option_bind]. now rewrite Hz.
  - destruct (Z.shiftr v 15 =? 0x1) eqn:Hn.
    + destruct (Hkeep _ Hu) as [-> Hs]. cbn [mbind option_bind]. now rewrite Hz, Hn.
    + destruct (Hkeep _ Hu) as [-> Hs]. cbn [mbind option_bind]. now rewrite Hz, Hn.
Qed.

Lemma updateFlag_idempotent_witness :
  exists vm', updateFlag r0 decrement_demo = Some vm' /\ updateFlag r0 vm' = Some vm'.
Proof.
  assert (Hu : updateFlag r0 decrement_demo =
               Some {| memory := memory decrement_demo;
                       registers := <[Z.to_nat rCD := flag_of 1]> (registers decrement_demo) |}).
  { apply (updateFlag_Some decrement_demo r0 1).
    - vm_compute. reflexivity.
    - vm_compute. reflexivity.
    - unfold is_u16. lia. }
  eexists. split; [exact Hu |].
  apply (updateFlag_idempotent decrement_demo _ r0); [discriminate | exact Hu].
Defined.

(** X9: [updateFlag] panics exactly when its argument is not the index of a
    register, given the register file [main] makes; in particular it
    cannot be called with a computed result as its argument. *)
Theorem updateFlag_panics_outside_registers (vm : VM) (f : Z) :
  Z.of_nat (length (registers vm)) = rCN ->
  (updateFlag f vm = None <-> ~ 0 <= f < rCN).
Proof.
  intros Hlen. split.
  - intros Hu Hf. rewrite <- Hlen in Hf.
    destruct (getReg_in_range vm f Hf) as [v Hv].
    assert (Hs : forall fl, is_Some (setReg vm rCD fl)).
    { intros fl. eexists. apply setReg_in_range. unfold rCD, rCN in *. lia. }
    unfold updateFlag in Hu. rewrite Hv in Hu. cbn [mbind option_bind] in Hu.
    destruct (v =? 0x0); [destruct (Hs flZRO) as [? E]; congruence |].
    destruct (Z.shiftr v 15 =? 0x1);
      [destruct (Hs flNEG) as [? E] | destruct (Hs flPOS) as [? E]]; congruence.
  - intros Hf. unfold updateFlag, getReg.
    rewrite index_out_of_range by (rewrite Hlen; exact Hf). reflexivity.
Qed.

Lemma updateFlag_panics_outside_registers_witness :
  updateFlag 0x8000 blank = None.
Proof.
  apply (updateFlag_panics_outside_registers blank 0x8000).
  - vm_compute. reflexivity.
  - unfold rCN. lia.
Defined.

(** ** The shape of an iteration *)

Lemma updateFlag_inv_flag (f : Z) (vm vm' : VM) :
  updateFlag f vm = Some vm' ->
  exists fl, (fl = flZRO \/ fl = flNEG \/ fl = flPOS) /\ setReg vm rCD fl = Some vm'.
Proof.
  unfold updateFlag. intros H.
  destruct (getReg vm f) as [v|]; [| discriminate]. cbn [mbind option_bind] in H.
  destruct (v =? 0x0); [eauto |].
  destruct (Z.shiftr v 15 =? 0x1); eauto 6.
Qed.

(** The ADD case, when it does not panic, writes a 16-bit sum to
    [registers[dst]] and then one flag constant to [registers[rCD]]. *)
Lemma caseADD_shape (vm vm' : VM) (dst srcA flag srcB : Z) :
  caseADD vm dst srcA flag srcB = Some vm' ->
  exists s fl,
    is_u16 s /\ (fl = flZRO \/ fl = flNEG \/ fl = flPOS) /\
    registers vm' = <[Z.to_nat rCD := fl]> (<[Z.to_nat dst := s]> (registers vm)) /\
    memory vm' = memory vm.
Proof.
  unfold caseADD. intros H. apply bind_Some in H as (vm1 & H1 & H2).
  apply updateFlag_inv_flag in H2 as (fl & Hfl & H2).
  assert (Hs : exists s, is_u16 s /\ setReg vm dst s = Some vm1).
  { destruct (flag =? 0x1).
    - apply bind_Some in H1 as (a & _ & H1). eauto using u16_range.
    - apply bind_Some in H1 as (a & _ & H1).
      apply bind_Some in H1 as (b & _ & H1). eauto using u16_range. }
  destruct Hs as (s & Hs & H1').
  apply setReg_Some in H1' as [_ ->]. apply setReg_Some in H2 as [_ ->].
  exists s, fl. cbn [memory registers]. auto.
Qed.

Lemma Lc3vm_execute_shape (vm vm' : VM) (op dst srcA flag srcB : Z) (running : bool) :
  Lc3vm.execute vm op dst srcA flag srcB = Some (vm', running) ->
  vm' = vm \/ caseADD vm dst srcA flag srcB = Some vm'.
Proof.
  intros H.
  destruct (Lc3vm_execute_cases vm op dst srcA flag srcB)
    as [[_ E] | [(_ & E & _) | (_ & E & _)]]; rewrite E in H.
  - apply bind_Some in H as (vm1 & Hc & [= <- _]). now right.
  - injection H as <- _. now left.
  - injection H as <- _. now left.
Qed.

Lemma MainGo_execute_shape (vm vm' : VM) (op dst srcA flag srcB : Z) (running : bool) :
  MainGo.execute vm op dst srcA flag srcB = Some (vm', running) ->
  vm' = vm \/ caseADD vm dst srcA flag srcB = Some vm'.
Proof.
  intros H.
  destruct (MainGo_execute_cases vm op dst srcA flag srcB)
    as [[_ E] | [(_ & E & _) | (_ & E & _)]]; rewrite E in H.
  - apply bind_Some in H as (vm1 & Hc & [= <- _]). now right.
  - injection H as <- _. now left.
  - injection H as <- _. now left.
Qed.

(** A completed iteration of either loop has stepped the program counter
    and then, at most, run the ADD case once. *)
Lemma Lc3vm_iteration_shape (vm vm' : VM) (c : Control) :
  Lc3vm.iteration vm = Some (vm', c) ->
  exists pc vm1,
    getReg vm rPC = Some pc /\
    setReg vm rPC (u16 (pc + 1)) = Some vm1 /\
    (vm' = vm1 \/
     exists dst srcA flag srcB, 0 <= dst < 8 /\ caseADD vm1 dst srcA flag srcB = Some vm').
Proof.
  intros H.
  destruct (getReg vm rPC) as [pc|] eqn:Hpc;
    [| unfold Lc3vm.iteration in H; rewrite Hpc in H; discriminate].
  exists pc.
  destruct (Z.le_gt_cases (u16 (Z.of_nat (length (memory vm)))) (u16 (pc + 1)))
    as [Hge | Hlt].
  - destruct (Lc3vm_iteration_guard vm pc Hpc Hge) as (vm1 & Hset & Hit).
    rewrite Hit in H. injection H as <- <-. exists vm1. auto.
  - assert (Hin : 0 <= u16 (pc + 1) < Z.of_nat (length (memory vm))).
    { pose proof (u16_range (pc + 1)) as Hu. unfold is_u16 in Hu.
      split; [lia |]. unfold u16 in Hlt at 2.
      pose proof (Z.mod_le (Z.of_nat (length (memory vm))) 65536). lia. }
    destruct (read_in_range vm _ Hin) as [instruction Hrd].
    destruct (Lc3vm_iteration_fetch vm pc instruction Hpc Hlt Hrd) as (vm1 & Hset & Hit).
    rewrite Hit in H. exists vm1. split; [reflexivity |]. split; [exact Hset |].
    destruct (decode instruction) as [[[[op dst] srcA] flag] srcB] eqn:Hdec.
    apply decode_fields_range in Hdec as (Hdst & _).
    apply bind_Some in H as ([vm2 running] & He & [= <- _]).
    apply Lc3vm_execute_shape in He as [-> | Hc]; [now left | right; eauto 6].
Qed.

Lemma MainGo_iteration_inv (vm vm' : VM) (c : Control) :
  MainGo.iteration vm = Some (vm', c) ->
  exists pc vm1 instruction,
    getReg vm rPC = Some pc /\
    setReg vm rPC (u16 (pc + 1)) = Some vm1 /\
    read vm (u16 (pc + 1)) = Some instruction /\
    (vm' = vm1 \/
     exists dst srcA flag srcB, 0 <= dst < 8 /\ caseADD vm1 dst srcA flag srcB = Some vm').
Proof.
  intros H.
  destruct (getReg vm rPC) as [pc|] eqn:Hpc;
    [| unfold MainGo.iteration in H; rewrite Hpc in H; discriminate].
  destruct (read vm (u16 (pc + 1))) as [instruction|] eqn:Hrd.
  - destruct (MainGo_iteration_fetch vm pc instruction Hpc Hrd) as (vm1 & Hset & Hit).
    rewrite Hit in H. exists pc, vm1, instruction.
    split; [reflexivity |]. split; [exact Hset |]. split; [exact Hrd |].
    destruct (decode instruction) as [[[[op dst] srcA] flag] srcB] eqn:Hdec.
    apply decode_fields_range in Hdec as (Hdst & _).
    apply bind_Some in H as ([vm2 running] & He & [= <- _]).
    apply MainGo_execute_shape in He as [-> | Hc]; [now left | right; eauto 6].
  - exfalso. unfold MainGo.iteration in H. rewrite Hpc in H. cbn [mbind option_bind] in H.
    destruct (setReg vm rPC (u16 (pc + 1))) as [vm1|] eqn:Hset; [| discriminate].
    cbn [mbind option_bind] in H. rewrite (getReg_setReg_eq _ _ _ _ Hset) in H.
    cbn [mbind option_bind] in H. unfold read in *.
    rewrite (setReg_memory _ _ _ _ Hset), Hrd in H. discriminate.
Qed.

(** What the shape gives: the memory is untouched, the register file keeps
    its length, and 16-bit registers stay 16-bit. *)
Lemma stepped_state_invariants (vm vm1 vm' : VM) (pc : Z) :
  setReg vm rPC (u16 (pc + 1)) = Some vm1 ->
  (vm' = vm1 \/
   exists dst srcA flag srcB, 0 <= dst < 8 /\ caseADD vm1 dst srcA flag srcB = Some vm') ->
  memory vm' = memory vm /\
  length (registers vm') = length (registers vm) /\
  (Forall is_u16 (registers vm) -> Forall is_u16 (registers vm')).
Proof.
  intros Hset Hshape.
  pose proof (setReg_memory _ _ _ _ Hset) as Hm1.
  pose proof (setReg_length _ _ _ _ Hset) as Hl1.
  assert (Hw1 : Forall is_u16 (registers vm) -> Forall is_u16 (registers vm1)).
  { intros Hw. apply setReg_Some in Hset as [_ ->]. cbn [registers].
    apply Forall_insert; [exact Hw | apply u16_range]. }
  destruct Hshape as [-> | (dst & srcA & flag & srcB & _ & Hc)]; [auto |].
  apply caseADD_shape in Hc as (s & fl & Hs & Hfl & Hregs & Hmem).
  rewrite Hregs, Hmem, !length_insert. split; [exact Hm1 |]. split; [exact Hl1 |].
  intros Hw. apply Forall_insert; [apply Forall_insert; auto |].
  destruct Hfl as [-> | [-> | ->]]; vm_compute; (split; [discriminate | reflexivity]).
Qed.

(** ** Invariants of the event loops *)

(** X10: neither event loop ever writes the memory or resizes the register
    file: when a run leaves the loop, the memory is what it was at the
    start and there are as many registers as before. *)
Theorem run_never_writes_memory (fuel : nat) (vm vm' : VM) :
  Lc3vm.run fuel vm = Exited vm' \/ MainGo.run fuel vm = Exited vm' ->
  memory vm' = memory vm /\ length (registers vm') = length (registers vm).
Proof.
  revert vm. induction fuel as [| fuel IH]; intros vm [H | H]; try discriminate.
  - cbn [Lc3vm.run] in H.
    destruct (Lc3vm.iteration vm) as [[vm1 [|]]|] eqn:Hit; try discriminate.
    + apply Lc3vm_iteration_shape in Hit as (pc & v1 & _ & Hset & Hshape).
      destruct (stepped_state_invariants _ _ _ _ Hset Hshape) as (Hm & Hl & _).
      destruct (IH vm1 (or_introl H)) as [Hm' Hl']. split; congruence.
    + injection H as <-.
      apply Lc3vm_iteration_shape in Hit as (pc & v1 & _ & Hset & Hshape).
      destruct (stepped_state_invariants _ _ _ _ Hset Hshape) as (Hm & Hl & _). auto.
  - cbn [MainGo.run] in H.
    destruct (MainGo.iteration vm) as [[vm1 [|]]|] eqn:Hit; try discriminate.
    + apply MainGo_iteration_inv in Hit as (pc & v1 & w & _ & Hset & _ & Hshape).
      destruct (stepped_state_invariants _ _ _ _ Hset Hshape) as (Hm & Hl & _).
      destruct (IH vm1 (or_intror H)) as [Hm' Hl']. split; congruence.
    + injection H as <-.
      apply MainGo_iteration_inv in Hit as (pc & v1 & w & _ & Hset & _ & Hshape).
      destruct (stepped_state_invariants _ _ _ _ Hset Hshape) as (Hm & Hl & _). auto.
Qed.

Lemma run_never_writes_memory_witness :
  exists vm', Lc3vm.run 1 top_demo = Exited vm' /\ memory vm' = memory top_demo.
Proof.
  destruct (Lc3vm_iteration_guard top_demo 0xFFFE) as (vm1 & _ & Hit).
  - vm_compute. reflexivity.
  - vm_compute. discriminate.
  - assert (Hrun : Lc3vm.run 1 top_demo = Exited vm1)
      by (cbn [Lc3vm.run]; now rewrite Hit).
    exists vm1. split; [exact Hrun |].
    exact (proj1 (run_never_writes_memory 1 top_demo vm1 (or_introl Hrun))).
Defined.

(** X11: registers that hold 16-bit words at the start hold 16-bit words when
    a run leaves the loop: every value either loop stores is reduced
    modulo 2^16 or is a flag constant. *)
Theorem run_keeps_registers_words (fuel : nat) (vm vm' : VM) :
  Forall is_u16 (registers vm) ->
  Lc3vm.run fuel vm = Exited vm' \/ MainGo.run fuel vm = Exited vm' ->
  Forall is_u16 (registers vm').
Proof.
  revert vm. induction fuel as [| fuel IH]; intros vm Hw [H | H]; try discriminate.
  - cbn [Lc3vm.run] in H.
    destruct (Lc3vm.iteration vm) as [[vm1 [|]]|] eqn:Hit; try discriminate.
    + apply Lc3vm_iteration_shape in Hit as (pc & v1 & _ & Hset & Hshape).
      destruct (stepped_state_invariants _ _ _ _ Hset Hshape) as (_ & _ & Hw1).
      apply (IH vm1 (Hw1 Hw) (or_introl H)).
    + injection H as <-.
      apply Lc3vm_iteration_shape in Hit as (pc & v1 & _ & Hset & Hshape).
      destruct (stepped_state_invariants _ _ _ _ Hset Hshape) as (_ & _ & Hw1). auto.
  - cbn [MainGo.run] in H.
    destruct (MainGo.iteration vm) as [[vm1 [|]]|] eqn:Hit; try discriminate.
    + apply MainGo_iteration_inv in Hit as (pc & v1 & w & _ & Hset & _ & Hshape).
      destruct (stepped_state_invariants _ _ _ _ Hset Hshape) as (_ & _ & Hw1).
      apply (IH vm1 (Hw1 Hw) (or_intror H)).
    + injection H as <-.
      apply MainGo_iteration_inv in Hit as (pc & v1 & w & _ & Hset & _ & Hshape).
      destruct (stepped_state_invariants _ _ _ _ Hset Hshape) as (_ & _ & Hw1). auto.
Qed.

Lemma run_keeps_registers_words_witness :
  exists vm', Lc3vm.run 1 top_demo = Exited vm' /\ Forall is_u16 (registers vm').
Proof.
  destruct (Lc3vm_iteration_guard top_demo 0xFFFE) as (vm1 & _ & Hit).
  - vm_compute. reflexivity.
  - vm_compute. discriminate.
  - assert (Hrun : Lc3vm.run 1 top_demo = Exited vm1)
      by (cbn [Lc3vm.run]; now rewrite Hit).
    exists vm1. split; [exact Hrun |].
    apply (run_keeps_registers_words 1 top_demo vm1); [| now left].
    apply Forall_insert; [apply Forall_replicate |]; unfold is_u16; lia.
Defined.

(** ** Words other than ADD *)

(** X12: every fetched word whose opcode is not ADD leaves the machine as it
    is but for the stepped program counter.  The loop of lc3vm then goes
    on unless the opcode is TRAP; the loop of [main.go] goes on unless the
    opcode is TRAP or BR. *)
Theorem non_add_word_only_steps_pc (vm : VM) (pc instruction : Z) :
  getReg vm rPC = Some pc ->
  u16 (pc + 1) < u16 (Z.of_nat (length (memory vm))) ->
  read vm (u16 (pc + 1)) = Some instruction ->
  is_u16 instruction ->
  Z.shiftr instruction 12 <> opADD ->
  let vm1 := {| memory := memory vm;
                registers := <[Z.to_nat rPC := u16 (pc + 1)]> (registers vm) |} in
  Lc3vm.iteration vm =
    Some (vm1, if Z.shiftr instruction 12 =? opTRA then Break else Continue) /\
  MainGo.iteration vm =
    Some (vm1, if (Z.shiftr instruction 12 =? opTRA) || (Z.shiftr instruction 12 =? opBR)
               then Break else Continue).
Proof.
  intros Hpc Hlt Hrd Hw Hop vm1.
  destruct (Lc3vm_iteration_fetch vm pc instruction Hpc Hlt Hrd) as (v1 & Hset & Hit).
  destruct (MainGo_iteration_fetch vm pc instruction Hpc Hrd) as (v1' & Hset' & Hit').
  rewrite Hset in Hset'. injection Hset' as <-.
  apply setReg_Some in Hset as [_ ->]. fold vm1 in Hit, Hit'.
  assert (Hrange : 0 <= Z.shiftr instruction 12 < 16).
  { pose proof (decode_alt instruction Hw) as Hd. unfold decode in Hd.
    injection Hd as -> _ _ _ _. pose proof (bits_range instruction 15 12).
    change (2 ^ (15 - 12 + 1)) with 16 in *. lia. }
  unfold decode in Hit, Hit'. cbn beta iota in Hit, Hit'.
  rewrite Hit, Hit'. clear Hit Hit'.
  set (op := Z.shiftr instruction 12) in *.
  destruct (Lc3vm_execute_cases vm1 op (Z.land (Z.shiftr instruction 9) 0x7)
              (Z.land (Z.shiftr instruction 6) 0x7) (Z.land (Z.shiftr instruction 5) 0x1)
              (Z.land instruction 0x1F)) as [[E _] | [(_ & E & Hr) | (_ & E & Hr)]];
    [contradiction | |]; rewrite E; clear E;
  destruct (MainGo_execute_cases vm1 op (Z.land (Z.shiftr instruction 9) 0x7)
              (Z.land (Z.shiftr instruction 6) 0x7) (Z.land (Z.shiftr instruction 5) 0x1)
              (Z.land instruction 0x1F)) as [[E' _] | [(_ & E' & Hr') | (_ & E' & Hr')]];
    try contradiction; rewrite E'; clear E'; cbn [mbind option_bind control_of].
  - assert (Ht : (op =? opTRA) = false) by (apply Z.eqb_neq; unfold opTRA; lia).
    rewrite Ht. cbn [negb orb andb]. destruct (op =? opBR); split; reflexivity.
  - assert (Ht : op = opTRA) by (unfold opTRA; lia).
    rewrite Ht. split; reflexivity.
Qed.

Lemma non_add_word_only_steps_pc_witness :
  Lc3vm.iteration rti_demo =
    Some ({| memory := memory rti_demo;
             registers := <[Z.to_nat rPC := u16 (pcStart + 1)]> (registers rti_demo) |},
          Continue).
Proof.
  refine (proj1 (non_add_word_only_steps_pc rti_demo pcStart 0x8000 _ _ _ _ _)).
  - vm_compute. reflexivity.
  - vm_compute. reflexivity.
  - vm_compute. reflexivity.
  - unfold is_u16. lia.
  - discriminate.
Defined.

(** ** Register indices past the register file *)

(** X13: in register mode the ADD case uses all five low bits of the word as
    the index of the second source.  With the ten registers [main] makes,
    a fetched ADD word with bit 5 clear and low bits of 10 or more makes
    the read of [registers[srcB]] panic, in both loops, so the run ends in
    a panic. *)
Theorem add_register_index_out_of_range_panics
    (vm : VM) (pc instruction dst srcA srcB : Z) (fuel : nat) :
  Z.of_nat (length (registers vm)) = rCN ->
  getReg vm rPC = Some pc ->
  u16 (pc + 1) < u16 (Z.of_nat (length (memory vm))) ->
  read vm (u16 (pc + 1)) = Some instruction ->
  decode instruction = (opADD, dst, srcA, 0, srcB) ->
  rCN <= srcB ->
  Lc3vm.iteration vm = None /\ MainGo.iteration vm = None /\
  Lc3vm.run (S fuel) vm = Panicked /\ MainGo.run (S fuel) vm = Panicked.
Proof.
  intros Hlen Hpc Hlt Hrd Hdec HsrcB.
  destruct (Lc3vm_iteration_fetch vm pc instruction Hpc Hlt Hrd) as (vm1 & Hset & Hit).
  destruct (MainGo_iteration_fetch vm pc instruction Hpc Hrd) as (vm1' & Hset' & Hit').
  rewrite Hset in Hset'. injection Hset' as <-.
  rewrite Hdec in Hit, Hit'. cbn beta iota in Hit, Hit'.
  assert (Hc : caseADD vm1 dst srcA 0 srcB = None).
  { unfold caseADD. change (0 =? 0x1) with false. cbn iota.
    assert (Hb : getReg vm1 srcB = None).
    { apply index_out_of_range. rewrite (setReg_length _ _ _ _ Hset), Hlen. lia. }
    rewrite Hb. destruct (getReg vm1 srcA); reflexivity. }
  unfold opADD in Hit, Hit'. cbn [Lc3vm.execute] in Hit. cbn [MainGo.execute] in Hit'.
  rewrite Hc in Hit, Hit'. cbn [mbind option_bind] in Hit, Hit'.
  cbn [Lc3vm.run MainGo.run]. rewrite Hit, Hit'. auto.
Qed.

Lemma add_register_index_out_of_range_panics_witness :
  decode 0x100A = (opADD, 0, 0, 0, 10) /\
  Lc3vm.run 1 panic_demo = Panicked /\ MainGo.run 1 panic_demo = Panicked.
Proof.
  destruct (add_register_index_out_of_range_panics panic_demo pcStart 0x100A 0 0 10 0)
    as (_ & _ & H1 & H2).
  - vm_compute. reflexivity.
  - vm_compute. reflexivity.
  - vm_compute. reflexivity.
  - vm_compute. reflexivity.
  - reflexivity.
  - unfold rCN. lia.
  - split; [reflexivity |]. split; [exact H1 | exact H2].
Defined.

(** ** The end of the memory *)

(** X14: with the 65535 words [main] makes, stepping the program counter onto
    [0xFFFF] ends both loops, but differently: lc3vm leaves the loop
    through its guard with the machine otherwise unchanged, while
    [main.go], which has no guard, panics on the fetch from
    [memory[0xFFFF]]. *)
Theorem last_address_break_or_panic (vm : VM) (pc : Z) :
  Z.of_nat (length (memory vm)) = MaxUint16 ->
  getReg vm rPC = Some pc ->
  u16 (pc + 1) = 0xFFFF ->
  Lc3vm.iteration vm =
    Some ({| memory := memory vm;
             registers := <[Z.to_nat rPC := 0xFFFF]> (registers vm) |}, Break) /\
  MainGo.iteration vm = None.
Proof.
  intros Hlen Hpc Hnext. split.
  - destruct (Lc3vm_iteration_guard vm pc Hpc) as (vm1 & Hset & Hit).
    { rewrite Hlen, Hnext. vm_compute. discriminate. }
    rewrite Hit. apply setReg_Some in Hset as [_ ->]. now rewrite Hnext.
  - unfold MainGo.iteration. rewrite Hpc. cbn [mbind option_bind].
    destruct (setReg vm rPC (u16 (pc + 1))) as [vm1|] eqn:Hset; [| reflexivity].
    cbn [mbind option_bind]. rewrite (getReg_setReg_eq _ _ _ _ Hset).
    cbn [mbind option_bind]. unfold read.
    rewrite index_out_of_range; [reflexivity |].
    rewrite (setReg_memory _ _ _ _ Hset), Hlen, Hnext. unfold MaxUint16. lia.
Qed.

Lemma last_address_break_or_panic_witness :
  (exists vm', Lc3vm.iteration top_demo = Some (vm', Break)) /\
  MainGo.iteration top_demo = None.
Proof.
  destruct (last_address_break_or_panic top_demo 0xFFFE) as [H1 H2].
  - vm_compute. reflexivity.
  - vm_compute. reflexivity.
  - reflexivity.
  - split; [eexists; exact H1 | exact H2].
Defined.

(** ** Termination of the event loop of [main.go] *)

Lemma MainGo_iteration_pc (vm vm' : VM) (c : Control) :
  MainGo.iteration vm = Some (vm', c) ->
  exists pc,
    getReg vm rPC = Some pc /\
    getReg vm' rPC = Some (u16 (pc + 1)) /\
    u16 (pc + 1) < Z.of_nat (length (memory vm)) /\
    memory vm' = memory vm.
Proof.
  intros H. apply MainGo_iteration_inv in H as (pc & vm1 & w & Hpc & Hset & Hrd & Hshape).
  exists pc. split; [exact Hpc |].
  apply index_Some in Hrd as [Hin _].
  destruct (stepped_state_invariants _ _ _ _ Hset Hshape) as (Hm & _ & _).
  split; [| split; [lia | exact Hm]].
  destruct Hshape as [-> | (dst & srcA & flag & srcB & Hdst & Hc)].
  - exact (getReg_setReg_eq _ _ _ _ Hset).
  - destruct (caseADD_frame _ _ _ _ _ _ rPC Hc) as [Hpc' _]; try (unfold rPC, rCD; lia).
    rewrite Hpc'. exact (getReg_setReg_eq _ _ _ _ Hset).
Qed.

Lemma MainGo_run_bounded (fuel : nat) :
  forall vm,
    Z.of_nat (length (memory vm)) <= MaxUint16 ->
    (0 < fuel)%nat ->
    (forall pc, getReg vm rPC = Some pc -> (65534 - pc) mod 65536 < Z.of_nat fuel) ->
    MainGo.run fuel vm <> OutOfFuel.
Proof.
  induction fuel as [| fuel IH]; intros vm Hlen Hpos Hdist; [lia |].
  cbn [MainGo.run].
  destruct (MainGo.iteration vm) as [[vm' [|]]|] eqn:Hit; try discriminate.
  apply MainGo_iteration_pc in Hit as (pc & Hpc & Hpc' & Hlt & Hmem).
  specialize (Hdist pc Hpc). unfold MaxUint16 in Hlen.
  pose proof (u16_range (pc + 1)) as Hq. unfold is_u16 in Hq.
  assert (Hd : (65534 - pc) mod 65536 = 65535 - u16 (pc + 1)).
  { unfold u16 in *. clear IH Hdist Hpc Hpc'. Z.div_mod_to_equations. lia. }
  apply IH.
  - rewrite Hmem. exact Hlen.
  - lia.
  - intros pc1 Hpc1. rewrite Hpc' in Hpc1. injection Hpc1 as <-.
    rewrite Z.mod_small by lia. lia.
Qed.

Lemma MainGo_run_more_fuel (fuel : nat) :
  forall vm extra,
    MainGo.run fuel vm <> OutOfFuel ->
    MainGo.run (fuel + extra) vm = MainGo.run fuel vm.
Proof.
  induction fuel as [| fuel IH]; intros vm extra H; [now contradict H |].
  cbn [MainGo.run Nat.add] in *.
  destruct (MainGo.iteration vm) as [[vm' [|]]|]; try reflexivity.
  apply IH. exact H.
Qed.

(** X15: the loop of [main.go] has no guard, yet on a memory of at most 65535
    words it terminates too: the program counter goes up by one in every
    iteration, and the fetch from address [0xFFFF] panics if nothing has
    stopped the loop before.  After 65536 iterations at most the run has
    ended, by a BR or TRAP word or by a panic. *)
Theorem MainGo_run_terminates (vm : VM) :
  Z.of_nat (length (memory vm)) <= MaxUint16 ->
  exists outcome,
    outcome <> OutOfFuel /\
    forall fuel, (Z.to_nat 65536 <= fuel)%nat -> MainGo.run fuel vm = outcome.
Proof.
  intros Hlen.
  assert (Hrun : MainGo.run (Z.to_nat 65536) vm <> OutOfFuel).
  { apply MainGo_run_bounded.
    - exact Hlen.
    - lia.
    - intros pc _. rewrite Z2Nat.id by lia. apply Z.mod_pos_bound. lia. }
  exists (MainGo.run (Z.to_nat 65536) vm). split; [exact Hrun |].
  intros fuel Hfuel.
  replace fuel with (Z.to_nat 65536 + (fuel - Z.to_nat 65536))%nat by lia.
  now apply MainGo_run_more_fuel.
Qed.

Lemma MainGo_run_terminates_witness :
  exists outcome,
    outcome <> OutOfFuel /\
    forall fuel, (Z.to_nat 65536 <= fuel)%nat -> MainGo.run fuel top_demo = outcome.
Proof.
  apply (MainGo_run_terminates top_demo). vm_compute. discriminate.
Defined.

(** ** Running over words that do nothing *)

Lemma Lc3vm_iteration_skip (vm : VM) (pc w : Z) :
  getReg vm rPC = Some pc ->
  u16 (pc + 1) < u16 (Z.of_nat (length (memory vm))) ->
  read vm (u16 (pc + 1)) = Some w ->
  skipped_by_lc3vm w = true ->
  Lc3vm.iteration vm =
  Some ({| memory := memory vm;
           registers := <[Z.to_nat rPC := u16 (pc + 1)]> (registers vm) |}, Continue).
Proof.
  intros Hpc Hlt Hrd Hskip.
  destruct (Lc3vm_iteration_fetch vm pc w Hpc Hlt Hrd) as (vm1 & Hset & Hit).
  apply setReg_Some in Hset as [_ ->].
  unfold decode in Hit. cbn beta iota in Hit. rewrite Hit.
  unfold skipped_by_lc3vm in Hskip.
  apply andb_true_iff in Hskip as [Hskip Hadd]. apply andb_true_iff in Hskip as [H0 H15].
  apply Z.leb_le in H0. apply Z.ltb_lt in H15. apply negb_true_iff, Z.eqb_neq in Hadd.
  match goal with
  | |- context [Lc3vm.execute ?v ?op ?d ?a ?f ?b] =>
      destruct (Lc3vm_execute_cases v op d a f b) as [[E _] | [(_ & E & Hr) | (_ & E & Hr)]]
  end; [contradiction | | unfold opTRA in *; lia].
  rewrite E. cbn [mbind option_bind].
  assert (Ht : (Z.shiftr w 12 =? opTRA) = false) by (apply Z.eqb_neq; lia).
  rewrite Ht. reflexivity.
Qed.

Lemma Lc3vm_run_continue (fuel : nat) (vm vm' : VM) :
  Lc3vm.iteration vm = Some (vm', Continue) ->
  Lc3vm.run (S fuel) vm = Lc3vm.run fuel vm'.
Proof. intros H. cbn [Lc3vm.run]. now rewrite H. Qed.

Lemma MainGo_run_continue (fuel : nat) (vm vm' : VM) :
  MainGo.iteration vm = Some (vm', Continue) ->
  MainGo.run (S fuel) vm = MainGo.run fuel vm'.
Proof. intros H. cbn [MainGo.run]. now rewrite H. Qed.

Lemma Lc3vm_run_skips (n : nat) :
  forall vm pc,
    Z.of_nat (length (memory vm)) = MaxUint16 ->
    getReg vm rPC = Some pc ->
    0 <= pc ->
    Z.of_nat n = 0xFFFE - pc ->
    forallb skipped_by_lc3vm (drop (Z.to_nat (pc + 1)) (memory vm)) = true ->
    Lc3vm.run (S n) vm =
    Exited {| memory := memory vm;
              registers := <[Z.to_nat rPC := 0xFFFF]> (registers vm) |}.
Proof.
  induction n as [| n IH]; intros vm pc Hlen Hpc Hpc0 Hn Hall.
  - assert (Hnext : u16 (pc + 1) = 0xFFFF) by (replace pc with 0xFFFE by lia; reflexivity).
    destruct (Lc3vm_iteration_guard vm pc Hpc) as (vm1 & Hset & Hit).
    { rewrite Hlen, Hnext. vm_compute. discriminate. }
    cbn [Lc3vm.run]. rewrite Hit. apply setReg_Some in Hset as [_ ->].
    now rewrite Hnext.
  - assert (Hnext : u16 (pc + 1) = pc + 1) by (apply u16_small; unfold is_u16; lia).
    unfold MaxUint16 in Hlen.
    destruct (read_in_range vm (pc + 1)) as [w Hrd]; [lia |].
    pose proof Hrd as Hlk. apply index_Some in Hlk as [_ Hlk].
    rewrite (drop_S _ _ _ Hlk) in Hall. cbn [forallb] in Hall.
    apply andb_true_iff in Hall as [Hskip Hall].
    rewrite <- Hnext in Hrd.
    assert (Hlt : u16 (pc + 1) < u16 (Z.of_nat (length (memory vm)))).
    { rewrite Hnext, Hlen. change (u16 65535) with 65535. lia. }
    pose proof (Lc3vm_iteration_skip vm pc w Hpc Hlt Hrd Hskip) as Hit.
    rewrite (Lc3vm_run_continue _ _ _ Hit). clear Hit.
    rewrite (IH _ (pc + 1)); cbn [memory registers].
    + now rewrite list_insert_insert_eq.
    + exact Hlen.
    + unfold getReg. cbn [registers]. rewrite Hnext.
      apply (index_assign_eq (registers vm)). apply assign_in_range.
      now apply getReg_Some_range in Hpc.
    + lia.
    + lia.
    + replace (Z.to_nat (pc + 1 + 1)) with (S (Z.to_nat (pc + 1))) by lia. exact Hall.
Qed.

(** X16: from a program counter below [0xFFFF], when every word after it up to
    the end of the 65535-word memory has an opcode other than ADD and
    TRAP, the loop of lc3vm walks over all of them and leaves through its
    guard after exactly [0xFFFF - pc] iterations, with the program counter
    at [0xFFFF] and every other register and the memory as they were. *)
Theorem lc3vm_walks_to_end_of_memory (vm : VM) (pc : Z) :
  Z.of_nat (length (memory vm)) = MaxUint16 ->
  getReg vm rPC = Some pc ->
  0 <= pc < 0xFFFF ->
  forallb skipped_by_lc3vm (drop (Z.to_nat (pc + 1)) (memory vm)) = true ->
  Lc3vm.run (Z.to_nat (0xFFFF - pc)) vm =
    Exited {| memory := memory vm;
              registers := <[Z.to_nat rPC := 0xFFFF]> (registers vm) |} /\
  Lc3vm.run (Z.to_nat (0xFFFE - pc)) vm = OutOfFuel.
Proof.
  intros Hlen Hpc Hrange Hall. split.
  - replace (Z.to_nat (0xFFFF - pc)) with (S (Z.to_nat (0xFFFE - pc))) by lia.
    apply (Lc3vm_run_skips _ vm pc); auto; lia.
  - destruct (Lc3vm.run (Z.to_nat (0xFFFE - pc)) vm) as [vm'| |] eqn:E; [| | reflexivity].
    + exfalso.
      assert (Hne : Lc3vm.run (Z.to_nat (0xFFFE - pc)) vm <> OutOfFuel) by (rewrite E; discriminate).
      pose proof (Lc3vm_run_more_fuel _ vm 1 Hne) as Hm.
      replace (Z.to_nat (0xFFFE - pc) + 1)%nat with (S (Z.to_nat (0xFFFE - pc))) in Hm by lia.
      rewrite (Lc3vm_run_skips _ vm pc) in Hm by (auto; lia).
      rewrite E in Hm. injection Hm as Hm.
      assert (Hcount : forall k v v1, Lc3vm.run k v = Exited v1 ->
                forall p, getReg v rPC = Some p -> 0 <= p ->
                  Z.of_nat (length (memory v)) = MaxUint16 ->
                  forallb skipped_by_lc3vm (drop (Z.to_nat (p + 1)) (memory v)) = true ->
                  0xFFFF - p <= Z.of_nat k).
      { clear. induction k as [| k IH]; intros v v1 Hr p Hp Hp0 Hl Ha; [discriminate |].
        destruct (Z.le_gt_cases 0xFFFE p) as [Hge | Hlt]; [lia |].
        unfold MaxUint16 in Hl.
        assert (Hnext : u16 (p + 1) = p + 1) by (apply u16_small; unfold is_u16; lia).
        destruct (read_in_range v (p + 1)) as [w Hrd]; [lia |].
        pose proof Hrd as Hlk. apply index_Some in Hlk as [_ Hlk].
        rewrite (drop_S _ _ _ Hlk) in Ha. cbn [forallb] in Ha.
        apply andb_true_iff in Ha as [Hskip Ha]. rewrite <- Hnext in Hrd.
        assert (Hlt' : u16 (p + 1) < u16 (Z.of_nat (length (memory v)))).
        { rewrite Hnext, Hl. change (u16 65535) with 65535. lia. }
        pose proof (Lc3vm_iteration_skip v p w Hp Hlt' Hrd Hskip) as Hit.
        rewrite (Lc3vm_run_continue _ _ _ Hit) in Hr.
        specialize (IH _ _ Hr (p + 1)). cbn [memory registers] in IH.
        assert (0xFFFF - (p + 1) <= Z.of_nat k); [| lia].
        apply IH.
        - unfold getReg. cbn [registers]. rewrite Hnext.
          apply (index_assign_eq (registers v)). apply assign_in_range.
          now apply getReg_Some_range in Hp.
        - lia.
        - exact Hl.
        - replace (Z.to_nat (p + 1 + 1)) with (S (Z.to_nat (p + 1))) by lia. exact Ha. }
      specialize (Hcount _ _ _ E pc Hpc (proj1 Hrange) Hlen Hall). lia.
    + exfalso.
      assert (Hne : Lc3vm.run (Z.to_nat (0xFFFE - pc)) vm <> OutOfFuel) by (rewrite E; discriminate).
      pose proof (Lc3vm_run_more_fuel _ vm 1 Hne) as Hm.
      replace (Z.to_nat (0xFFFE - pc) + 1)%nat with (S (Z.to_nat (0xFFFE - pc))) in Hm by lia.
      rewrite (Lc3vm_run_skips _ vm pc) in Hm by (auto; lia).
      rewrite E in Hm. discriminate Hm.
Qed.

Lemma lc3vm_walks_to_end_of_memory_witness :
  Lc3vm.run (Z.to_nat (0xFFFF - (pcStart + 4))) after_adds =
  Exited {| memory := memory after_adds;
            registers := <[Z.to_nat rPC := 0xFFFF]> (registers after_adds) |}.
Proof.
  refine (proj1 (lc3vm_walks_to_end_of_memory after_adds (pcStart + 4) _ _ _ _)).
  - vm_compute. reflexivity.
  - vm_compute. reflexivity.
  - vm_compute. split; [discriminate | reflexivity].
  - vm_compute. reflexivity.
Defined.

Lemma MainGo_iteration_skip (vm : VM) (pc w : Z) :
  getReg vm rPC = Some pc ->
  read vm (u16 (pc + 1)) = Some w ->
  skipped_by_main w = true ->
  MainGo.iteration vm =
  Some ({| memory := memory vm;
           registers := <[Z.to_nat rPC := u16 (pc + 1)]> (registers vm) |}, Continue).
Proof.
  intros Hpc Hrd Hskip.
  destruct (MainGo_iteration_fetch vm pc w Hpc Hrd) as (vm1 & Hset & Hit).
  apply setReg_Some in Hset as [_ ->].
  unfold decode in Hit. cbn beta iota in Hit. rewrite Hit.
  unfold skipped_by_main in Hskip.
  apply andb_true_iff in Hskip as [H1 H15]. apply Z.ltb_lt in H1, H15.
  unfold opADD, opTRA in *.
  match goal with
  | |- context [MainGo.execute ?v ?op ?d ?a ?f ?b] =>
      destruct (MainGo_execute_cases v op d a f b) as [[E _] | [(_ & E & Hr) | (_ & E & Hr)]]
  end; [unfold opADD in E; lia | | lia].
  rewrite E. cbn [mbind option_bind].
  assert (Ht : (Z.shiftr w 12 =? opTRA) = false) by (apply Z.eqb_neq; unfold opTRA; lia).
  assert (Hb : (Z.shiftr w 12 =? opBR) = false) by (apply Z.eqb_neq; unfold opBR; lia).
  rewrite Ht, Hb. reflexivity.
Qed.

Lemma MainGo_iteration_stop (vm : VM) (pc w : Z) :
  getReg vm rPC = Some pc ->
  read vm (u16 (pc + 1)) = Some w ->
  stops_main w = true ->
  MainGo.iteration vm =
  Some ({| memory := memory vm;
           registers := <[Z.to_nat rPC := u16 (pc + 1)]> (registers vm) |}, Break).
Proof.
  intros Hpc Hrd Hstop.
  destruct (MainGo_iteration_fetch vm pc w Hpc Hrd) as (vm1 & Hset & Hit).
  apply setReg_Some in Hset as [_ ->].
  unfold decode in Hit. cbn beta iota in Hit. rewrite Hit.
  unfold stops_main in Hstop. apply orb_true_iff in Hstop.
  destruct Hstop as [->%Z.eqb_eq | ->%Z.eqb_eq]; reflexivity.
Qed.

Lemma MainGo_run_skips (n : nat) :
  forall vm pc w,
    getReg vm rPC = Some pc ->
    0 <= pc ->
    pc + 1 + Z.of_nat n < 65536 ->
    forallb skipped_by_main (take n (drop (Z.to_nat (pc + 1)) (memory vm))) = true ->
    read vm (pc + 1 + Z.of_nat n) = Some w ->
    stops_main w = true ->
    MainGo.run (S n) vm =
    Exited {| memory := memory vm;
              registers := <[Z.to_nat rPC := pc + 1 + Z.of_nat n]> (registers vm) |}.
Proof.
  induction n as [| n IH]; intros vm pc w Hpc Hpc0 Htop Hall Hrd Hstop.
  - assert (Hnext : u16 (pc + 1) = pc + 1) by (apply u16_small; unfold is_u16; lia).
    rewrite Z.add_0_r in *. rewrite <- Hnext in Hrd.
    cbn [MainGo.run]. rewrite (MainGo_iteration_stop vm pc w Hpc Hrd Hstop).
    now rewrite Hnext.
  - assert (Hnext : u16 (pc + 1) = pc + 1) by (apply u16_small; unfold is_u16; lia).
    pose proof Hrd as Hin. apply index_Some in Hin as [Hin _].
    destruct (read_in_range vm (pc + 1)) as [w0 Hrd0]; [lia |].
    pose proof Hrd0 as Hlk. apply index_Some in Hlk as [_ Hlk].
    rewrite (drop_S _ _ _ Hlk) in Hall. cbn [take forallb] in Hall.
    apply andb_true_iff in Hall as [Hskip Hall].
    rewrite <- Hnext in Hrd0.
    rewrite (MainGo_run_continue _ _ _ (MainGo_iteration_skip vm pc w0 Hpc Hrd0 Hskip)).
    rewrite (IH _ (pc + 1) w); cbn [memory registers].
    + rewrite list_insert_insert_eq. do 3 f_equal. lia.
    + unfold getReg. cbn [registers]. rewrite Hnext.
      apply (index_assign_eq (registers vm)). apply assign_in_range.
      now apply getReg_Some_range in Hpc.
    + lia.
    + lia.
    + replace (Z.to_nat (pc + 1 + 1)) with (S (Z.to_nat (pc + 1))) by lia. exact Hall.
    + unfold read in *. cbn [memory]. rewrite <- Hrd. f_equal. lia.
    + exact Hstop.
Qed.

(** X17: the loop of [main.go] walks over words with opcodes 2 to 14 and stops
    at the first BR or TRAP word after them: with [n] such words after the
    program counter and a BR or TRAP word next, the run leaves the loop
    after [n + 1] iterations with the program counter on the stopping
    word and every other register and the memory as they were. *)
Theorem main_stops_at_first_br_or_trap (vm : VM) (pc w : Z) (n : nat) :
  getReg vm rPC = Some pc ->
  0 <= pc ->
  pc + 1 + Z.of_nat n < 65536 ->
  forallb skipped_by_main (take n (drop (Z.to_nat (pc + 1)) (memory vm))) = true ->
  read vm (pc + 1 + Z.of_nat n) = Some w ->
  stops_main w = true ->
  MainGo.run (S n) vm =
  Exited {| memory := memory vm;
            registers := <[Z.to_nat rPC := pc + 1 + Z.of_nat n]> (registers vm) |}.
Proof. intros. now apply (MainGo_run_skips n vm pc w). Qed.

Lemma main_stops_at_first_br_or_trap_witness :
  MainGo.run 3 rti_demo =
  Exited {| memory := memory rti_demo;
            registers := <[Z.to_nat rPC := pcStart + 1 + 2]> (registers rti_demo) |}.
Proof.
  replace (pcStart + 1 + 2) with (pcStart + 1 + Z.of_nat 2) by reflexivity.
  apply (main_stops_at_first_br_or_trap rti_demo pcStart 0 2).
  - vm_compute. reflexivity.
  - vm_compute. discriminate.
  - vm_compute. reflexivity.
  - vm_compute. reflexivity.
  - vm_compute. reflexivity.
  - vm_compute. reflexivity.
Defined.

(** ** The two programs as a whole *)

Lemma Lc3vm_iteration_from_registers (vm : VM) (regs : list Z) (c : Control) :
  (p ← Lc3vm.iteration vm; Some (registers p.1, p.2)) = Some (regs, c) ->
  Lc3vm.iteration vm = Some ({| memory := memory vm; registers := regs |}, c).
Proof.
  intros H. destruct (Lc3vm.iteration vm) as [[vm' c']|] eqn:Hit; [| discriminate].
  cbn [mbind option_bind fst snd] in H. injection H as Hr ->.
  apply Lc3vm_iteration_shape in Hit as (pc & v1 & _ & Hset & Hshape).
  destruct (stepped_state_invariants _ _ _ _ Hset Hshape) as (Hm & _ & _).
  destruct vm' as [m r]. cbn [memory registers] in *. now subst.
Qed.

Lemma MainGo_iteration_from_registers (vm : VM) (regs : list Z) (c : Control) :
  (p ← MainGo.iteration vm; Some (registers p.1, p.2)) = Some (regs, c) ->
  MainGo.iteration vm = Some ({| memory := memory vm; registers := regs |}, c).
Proof.
  intros H. destruct (MainGo.iteration vm) as [[vm' c']|] eqn:Hit; [| discriminate].
  cbn [mbind option_bind fst snd] in H. injection H as Hr ->.
  apply MainGo_iteration_inv in Hit as (pc & v1 & w & _ & Hset & _ & Hshape).
  destruct (stepped_state_invariants _ _ _ _ Hset Hshape) as (Hm & _ & _).
  destruct vm' as [m r]. cbn [memory registers] in *. now subst.
Qed.

Lemma Lc3vm_run_step_registers (fuel : nat) (m regs regs' : list Z) :
  (p ← Lc3vm.iteration {| memory := m; registers := regs |};
   Some (registers p.1, p.2)) = Some (regs', Continue) ->
  Lc3vm.run (S fuel) {| memory := m; registers := regs |} =
  Lc3vm.run fuel {| memory := m; registers := regs' |}.
Proof.
  intros H. apply Lc3vm_run_continue.
  exact (Lc3vm_iteration_from_registers {| memory := m; registers := regs |} regs' Continue H).
Qed.

Lemma MainGo_run_step_registers (fuel : nat) (m regs regs' : list Z) :
  (p ← MainGo.iteration {| memory := m; registers := regs |};
   Some (registers p.1, p.2)) = Some (regs', Continue) ->
  MainGo.run (S fuel) {| memory := m; registers := regs |} =
  MainGo.run fuel {| memory := m; registers := regs' |}.
Proof.
  intros H. apply MainGo_run_continue.
  exact (MainGo_iteration_from_registers {| memory := m; registers := regs |} regs' Continue H).
Qed.

Lemma initial_eta :
  initial = {| memory := memory initial;
               registers := [0; 1; 0; 0; 0; 0; 0; 0; pcStart; 0] |}.
Proof. reflexivity. Qed.

(** X18: the program of the second file runs to completion without a panic:
    it executes its four ADD words, walks over the rest of the zeroed
    memory and leaves through the guard after [0xFFFF - 0x3000] iterations
    with [R0 = 7], [R1 = 1], the flags at P and the program counter at
    [0xFFFF]; the memory is as [main] filled it. *)
Theorem lc3vm_program_result :
  Lc3vm.run (Z.to_nat (0xFFFF - pcStart)) initial =
  Exited {| memory := memory initial;
            registers := [7; 1; 0; 0; 0; 0; 0; 0; 0xFFFF; flPOS] |}.
Proof.
  replace (Z.to_nat (0xFFFF - pcStart))
    with (S (S (S (S (S (Z.to_nat (0xFFFE - (pcStart + 4)))))))) by (unfold pcStart; lia).
  rewrite initial_eta at 1.
  rewrite (Lc3vm_run_step_registers _ (memory initial)
             [0; 1; 0; 0; 0; 0; 0; 0; pcStart; 0]
             [1; 1; 0; 0; 0; 0; 0; 0; pcStart + 1; flPOS])
    by (vm_compute; reflexivity).
  rewrite (Lc3vm_run_step_registers _ (memory initial)
             [1; 1; 0; 0; 0; 0; 0; 0; pcStart + 1; flPOS]
             [2; 1; 0; 0; 0; 0; 0; 0; pcStart + 2; flPOS])
    by (vm_compute; reflexivity).
  rewrite (Lc3vm_run_step_registers _ (memory initial)
             [2; 1; 0; 0; 0; 0; 0; 0; pcStart + 2; flPOS]
             [3; 1; 0; 0; 0; 0; 0; 0; pcStart + 3; flPOS])
    by (vm_compute; reflexivity).
  rewrite (Lc3vm_run_step_registers _ (memory initial)
             [3; 1; 0; 0; 0; 0; 0; 0; pcStart + 3; flPOS]
             [7; 1; 0; 0; 0; 0; 0; 0; pcStart + 4; flPOS])
    by (vm_compute; reflexivity).
  change {| memory := memory initial;
            registers := [7; 1; 0; 0; 0; 0; 0; 0; pcStart + 4; flPOS] |}
    with after_adds.
  rewrite (Lc3vm_run_skips _ after_adds (pcStart + 4)).
  - reflexivity.
  - vm_compute. reflexivity.
  - vm_compute. reflexivity.
  - unfold pcStart. lia.
  - unfold pcStart. lia.
  - vm_compute. reflexivity.
Qed.

(** X19: the program of [main.go] halts after five iterations: its four ADD
    words, then the zero word behind them, which has the opcode of BR.  It
    ends with [R0 = 7], [R1 = 1], the flags at P and the program counter
    on the zero word at [0x3005]. *)
Theorem main_program_result :
  MainGo.run 5 initial =
  Exited {| memory := memory initial;
            registers := [7; 1; 0; 0; 0; 0; 0; 0; pcStart + 5; flPOS] |}.
Proof.
  rewrite initial_eta at 1.
  rewrite (MainGo_run_step_registers _ (memory initial)
             [0; 1; 0; 0; 0; 0; 0; 0; pcStart; 0]
             [1; 1; 0; 0; 0; 0; 0; 0; pcStart + 1; flPOS])
    by (vm_compute; reflexivity).
  rewrite (MainGo_run_step_registers _ (memory initial)
             [1; 1; 0; 0; 0; 0; 0; 0; pcStart + 1; flPOS]
             [2; 1; 0; 0; 0; 0; 0; 0; pcStart + 2; flPOS])
    by (vm_compute; reflexivity).
  rewrite (MainGo_run_step_registers _ (memory initial)
             [2; 1; 0; 0; 0; 0; 0; 0; pcStart + 2; flPOS]
             [3; 1; 0; 0; 0; 0; 0; 0; pcStart + 3; flPOS])
    by (vm_compute; reflexivity).
  rewrite (MainGo_run_step_registers _ (memory initial)
             [3; 1; 0; 0; 0; 0; 0; 0; pcStart + 3; flPOS]
             [7; 1; 0; 0; 0; 0; 0; 0; pcStart + 4; flPOS])
    by (vm_compute; reflexivity).
  change {| memory := memory initial;
            registers := [7; 1; 0; 0; 0; 0; 0; 0; pcStart + 4; flPOS] |}
    with after_adds.
  rewrite (MainGo_run_skips 0 after_adds (pcStart + 4) 0).
  - reflexivity.
  - vm_compute. reflexivity.
  - unfold pcStart. lia.
  - unfold pcStart. simpl. lia.
  - reflexivity.
  - vm_compute. reflexivity.
  - reflexivity.
Qed.
